(** * Super Fresh AI scanner (app.py): a shallow embedding and its properties

    The development follows the layout of [app.py]:
    - [Py]        : the fragment of Python the script relies on (exceptions,
                    [str] containment, insertion-ordered [dict]s, [int], [str]);
    - [Json]      : the documents handled by [json.dump(..., indent=2)] and
                    [json.load], with the encoder and the decoder;
    - [Np], [PIL] : [np.argmax], nested-list arrays, and the two [Image]
                    methods the script calls, by their contract;
    - [App]       : the functions and button handlers of the script itself;
    - [Store], [Ui], [Reference] : the vocabulary of the statements, the
                    user actions as a transition function, and sample data.
    The facts come after the definitions, in the order of the script:
    store, inference, preprocessing, loader, scan, categories.

    Modelling conventions.  A Python [str] is a Rocq [string] whose
    characters stand for code points below 256.  A [float] is the rational
    it denotes ([Q]); rounding, NaN and infinities are not represented.
    A raised exception is the [Raise] outcome of a [result]. *)

From Stdlib Require Import List String Ascii Bool Arith ZArith QArith Lia.
From Stdlib Require Import DecimalString.
From Stdlib Require DecimalFacts DecimalPos DecimalNat Permutation Sorted.
Import ListNotations.

Local Close Scope Q_scope.
Local Open Scope string_scope.
Local Open Scope list_scope.
Local Open Scope nat_scope.

Set Warnings "-register-all".


(* ================================================================== *)
(** * Python fragment *)
(* ================================================================== *)

Module Py.

(** Exceptions the script can meet. *)
Inductive exn : Type :=
| FileNotFoundError
| JSONDecodeError
| ValueError
| TypeError
| AttributeError
| KeyError
| IndexError.

Inductive result (A : Type) : Type :=
| OK (a : A)
| Raise (e : exn).
Arguments OK {A} a.
Arguments Raise {A} e.

Definition bind {A B} (r : result A) (k : A -> result B) : result B :=
  match r with
  | OK a => k a
  | Raise e => Raise e
  end.

Definition of_option {A} (e : exn) (o : option A) : result A :=
  match o with
  | Some a => OK a
  | None => Raise e
  end.

(** [needle in hay] on two [str]s: [needle] occurs at some offset. *)
Fixpoint contains (needle hay : string) : bool :=
  String.prefix needle hay
  || match hay with
     | EmptyString => false
     | String _ rest => contains needle rest
     end.

(** Keys of a [dict]: anything with a decidable equality. *)
Class EqKey (K : Type) : Type := {
  keqb : K -> K -> bool;
  keqb_spec : forall x y : K, reflect (x = y) (keqb x y)
}.

#[export] Instance string_EqKey : EqKey string :=
  {| keqb := String.eqb; keqb_spec := String.eqb_spec |}.

#[export] Instance Z_EqKey : EqKey Z :=
  {| keqb := Z.eqb; keqb_spec := Z.eqb_spec |}.

(** A [dict] is kept as the list of its items in insertion order, which is
    the order [json.dump] and [.items()] follow.  Keys are pairwise
    distinct in every dict built with [dict_set] from the empty one. *)
Section Dict.
Context {K V : Type} `{EqKey K}.

Definition dict : Type := list (K * V).

(** [d.get(k)] *)
Fixpoint dict_get (k : K) (d : dict) : option V :=
  match d with
  | [] => None
  | (k', v) :: rest => if keqb k k' then Some v else dict_get k rest
  end.

(** [k in d] *)
Definition dict_mem (k : K) (d : dict) : bool :=
  match dict_get k d with
  | Some _ => true
  | None => false
  end.

(** [d[k] = v]: an existing key keeps its position, a new one goes last. *)
Fixpoint dict_set (k : K) (v : V) (d : dict) : dict :=
  match d with
  | [] => [(k, v)]
  | (k', v') :: rest =>
      if keqb k k' then (k', v) :: rest else (k', v') :: dict_set k v rest
  end.

(** [dict(pairs)]: later pairs override earlier ones. *)
Definition dict_of_pairs (pairs : list (K * V)) : dict :=
  fold_left (fun d kv => dict_set (fst kv) (snd kv) d) pairs [].

Definition keys (d : dict) : list K := map fst d.
End Dict.
Arguments dict : clear implicits.

(** [str(n)] for a non-negative index. *)
Definition str_of_nat (n : nat) : string :=
  NilEmpty.string_of_uint (Nat.to_uint n).

Definition is_digit (c : ascii) : bool :=
  let n := nat_of_ascii c in (48 <=? n) && (n <=? 57).

Definition digit_val (c : ascii) : Z := Z.of_nat (nat_of_ascii c - 48).

(** Whitespace that [int] discards around a literal, among the code
    points below 256: tab to carriage return, space, NEL and the
    no-break space. *)
Definition is_space (c : ascii) : bool :=
  let n := nat_of_ascii c in
  ((9 <=? n) && (n <=? 13)) || (n =? 32) || (n =? 133) || (n =? 160).

Fixpoint lstrip (s : string) : string :=
  match s with
  | String c rest => if is_space c then lstrip rest else s
  | EmptyString => s
  end.

(** Digits of an [int] literal, with single underscores allowed between
    digits; [after_digit] tells whether the previous character was one. *)
Fixpoint int_digits (acc : Z) (after_digit : bool) (s : string)
  : option (Z * string) :=
  match s with
  | String c rest =>
      if is_digit c then int_digits (10 * acc + digit_val c) true rest
      else if (Ascii.eqb c "_" && after_digit)%bool then
        match rest with
        | String c' _ => if is_digit c' then int_digits acc false rest else None
        | EmptyString => None
        end
      else if after_digit then Some (acc, s) else None
  | EmptyString => if after_digit then Some (acc, s) else None
  end.

(** [int(s)] on a [str], base 10: surrounding whitespace, an optional
    sign, then digits.  [None] is [ValueError]. *)
Definition int_of_str (s : string) : option Z :=
  let body := lstrip s in
  let '(sign, digits) :=
    match body with
    | String "-" rest => ((-1)%Z, rest)
    | String "+" rest => (1%Z, rest)
    | _ => (1%Z, body)
    end in
  match int_digits 0 false digits with
  | Some (n, tail) =>
      match lstrip tail with
      | EmptyString => Some (sign * n)%Z
      | _ => None
      end
  | None => None
  end.

End Py.
Export Py.


(* ================================================================== *)
(** * JSON documents, [json.dump(obj, f, indent=2)] and [json.load(f)] *)
(* ================================================================== *)

Module Json.

(** What [json.load] can return.  Numbers are the integer literals: a
    literal with a fraction or an exponent, [NaN] and [Infinity] are
    outside the fragment and [loads] below rejects them. *)
Inductive json : Type :=
| JNull
| JBool (b : bool)
| JInt (z : Z)
| JStr (s : string)
| JList (items : list json)
| JDict (members : list (string * json)).

(** ** Encoder *)

Definition hex_digit (n : nat) : ascii :=
  if n <? 10 then ascii_of_nat (48 + n) else ascii_of_nat (87 + n).

(** One character of a string under [ensure_ascii=True]. *)
Definition escape_char (c : ascii) : string :=
  let n := nat_of_ascii c in
  if Ascii.eqb c "034" then String "\" (String "034" EmptyString)
  else if Ascii.eqb c "\" then "\\"
  else if n =? 10 then "\n"
  else if n =? 13 then "\r"
  else if n =? 9 then "\t"
  else if n =? 8 then "\b"
  else if n =? 12 then "\f"
  else if (32 <=? n) && (n <=? 126) then String c EmptyString
  else String "\" (String "u" (String "0" (String "0"
         (String (hex_digit (n / 16)) (String (hex_digit (n mod 16)) EmptyString))))).

Fixpoint escape (s : string) : string :=
  match s with
  | EmptyString => EmptyString
  | String c rest => (escape_char c ++ escape rest)%string
  end.

Definition encode_str (s : string) : string :=
  String "034" (escape s ++ String "034" EmptyString)%string.

Definition encode_int (z : Z) : string :=
  NilZero.string_of_int (Z.to_int z).

Definition LF : ascii := ascii_of_nat 10.

Fixpoint spaces (n : nat) : string :=
  match n with
  | O => EmptyString
  | S n' => String " " (spaces n')
  end.

(** The line break that precedes an item at nesting depth [lvl]. *)
Definition newline_indent (lvl : nat) : string :=
  String LF (spaces (2 * lvl)).

(** [dumps_at lvl v]: the text of [v] when it sits at nesting depth [lvl].
    Items are separated by a comma and a line break, a key and its value
    by a colon and a space; empty containers are written on one line. *)
Fixpoint dumps_at (lvl : nat) (v : json) : string :=
  match v with
  | JNull => "null"
  | JBool true => "true"
  | JBool false => "false"
  | JInt z => encode_int z
  | JStr s => encode_str s
  | JList [] => "[]"
  | JList (x :: xs) =>
      ("[" ++ newline_indent (S lvl) ++ dumps_at (S lvl) x
       ++ (fix rest (l : list json) : string :=
             match l with
             | [] => EmptyString
             | y :: l' =>
                 "," ++ newline_indent (S lvl) ++ dumps_at (S lvl) y ++ rest l'
             end) xs
       ++ newline_indent lvl ++ "]")%string
  | JDict [] => "{}"
  | JDict ((k, x) :: xs) =>
      ("{" ++ newline_indent (S lvl) ++ encode_str k ++ ": " ++ dumps_at (S lvl) x
       ++ (fix rest (l : list (string * json)) : string :=
             match l with
             | [] => EmptyString
             | (k', y) :: l' =>
                 "," ++ newline_indent (S lvl) ++ encode_str k' ++ ": "
                 ++ dumps_at (S lvl) y ++ rest l'
             end) xs
       ++ newline_indent lvl ++ "}")%string
  end.

Definition dumps (v : json) : string := dumps_at 0 v.

(** ** Decoder *)

Definition is_ws (c : ascii) : bool :=
  let n := nat_of_ascii c in
  (n =? 32) || (n =? 9) || (n =? 10) || (n =? 13).

Fixpoint skip_ws (s : string) : string :=
  match s with
  | String c rest => if is_ws c then skip_ws rest else s
  | EmptyString => s
  end.

Definition hex_val (c : ascii) : option nat :=
  let n := nat_of_ascii c in
  if (48 <=? n) && (n <=? 57) then Some (n - 48)
  else if (97 <=? n) && (n <=? 102) then Some (n - 87)
  else if (65 <=? n) && (n <=? 70) then Some (n - 55)
  else None.

(** The code point of a [\uXXXX] escape, when it is below 256. *)
Definition hex4 (a b c d : ascii) : option ascii :=
  match hex_val a, hex_val b, hex_val c, hex_val d with
  | Some 0, Some 0, Some x, Some y => Some (ascii_of_nat (16 * x + y))
  | _, _, _, _ => None
  end.

(** The character an escape letter stands for. *)
Definition unescape (e : ascii) : option ascii :=
  if Ascii.eqb e "034" then Some "034"%char
  else if Ascii.eqb e "\" then Some "\"%char
  else if Ascii.eqb e "/" then Some "/"%char
  else if Ascii.eqb e "b" then Some (ascii_of_nat 8)
  else if Ascii.eqb e "f" then Some (ascii_of_nat 12)
  else if Ascii.eqb e "n" then Some (ascii_of_nat 10)
  else if Ascii.eqb e "r" then Some (ascii_of_nat 13)
  else if Ascii.eqb e "t" then Some (ascii_of_nat 9)
  else None.

Definition cons_char (c : ascii) (r : option (string * string))
  : option (string * string) :=
  match r with
  | Some (s, rest) => Some (String c s, rest)
  | None => None
  end.

(** The body of a string literal, after its opening quote, up to and
    including the closing quote (strict mode: raw control characters are
    refused). *)
Fixpoint scanstring (s : string) : option (string * string) :=
  match s with
  | EmptyString => None
  | String c rest =>
      if Ascii.eqb c "034" then Some (EmptyString, rest)
      else if Ascii.eqb c "\" then
        match rest with
        | String e rest' =>
            if Ascii.eqb e "u" then
              match rest' with
              | String h1 (String h2 (String h3 (String h4 rest''))) =>
                  match hex4 h1 h2 h3 h4 with
                  | Some ch => cons_char ch (scanstring rest'')
                  | None => None
                  end
              | _ => None
              end
            else
              match unescape e with
              | Some ch => cons_char ch (scanstring rest')
              | None => None
              end
        | EmptyString => None
        end
      else if nat_of_ascii c <? 32 then None
      else cons_char c (scanstring rest)
  end.

(** Digits of an integer literal. *)
Fixpoint scan_digits (acc : Z) (s : string) : Z * string :=
  match s with
  | String c rest =>
      if is_digit c then scan_digits (10 * acc + digit_val c) rest else (acc, s)
  | EmptyString => (acc, s)
  end.

Definition starts_fraction (s : string) : bool :=
  match s with
  | String c _ => Ascii.eqb c "." || Ascii.eqb c "e" || Ascii.eqb c "E"
  | EmptyString => false
  end.

(** An unsigned integer literal: [0] or a non-zero digit followed by
    digits, not continued by a fraction or an exponent. *)
Definition scan_nat (s : string) : option (Z * string) :=
  match s with
  | String c rest =>
      if Ascii.eqb c "0" then
        if starts_fraction rest then None else Some (0%Z, rest)
      else if is_digit c then
        let '(n, tail) := scan_digits (digit_val c) rest in
        if starts_fraction tail then None else Some (n, tail)
      else None
  | EmptyString => None
  end.

Definition scan_literal (lit : string) (v : json) (s : string)
  : option (json * string) :=
  if String.prefix lit s
  then Some (v, String.substring (String.length lit)
                                 (String.length s - String.length lit) s)
  else None.

(** [scan_once]: one value at the head of [s] (no leading whitespace).
    [fuel] bounds the nesting and the number of items: every opening
    bracket and every item costs one unit and at least one character, so
    [loads] provides one unit more than the text has characters. *)
Fixpoint scan_once (fuel : nat) (s : string) : option (json * string) :=
  match fuel with
  | O => None
  | S fuel' =>
      match s with
      | EmptyString => None
      | String c rest =>
          if Ascii.eqb c "034" then
            match scanstring rest with
            | Some (str, tail) => Some (JStr str, tail)
            | None => None
            end
          else if Ascii.eqb c "{" then
            match skip_ws rest with
            | String "}" tail => Some (JDict [], tail)
            | body => scan_members fuel' body []
            end
          else if Ascii.eqb c "[" then
            match skip_ws rest with
            | String "]" tail => Some (JList [], tail)
            | body => scan_items fuel' body []
            end
          else if Ascii.eqb c "n" then scan_literal "null" JNull s
          else if Ascii.eqb c "t" then scan_literal "true" (JBool true) s
          else if Ascii.eqb c "f" then scan_literal "false" (JBool false) s
          else if Ascii.eqb c "-" then
            match scan_nat rest with
            | Some (n, tail) => Some (JInt (- n), tail)
            | None => None
            end
          else
            match scan_nat s with
            | Some (n, tail) => Some (JInt n, tail)
            | None => None
            end
      end
  end

(** The items of an array, [s] standing at the first character of the
    next item; [acc] holds the items read so far, last first. *)
with scan_items (fuel : nat) (s : string) (acc : list json)
  : option (json * string) :=
  match fuel with
  | O => None
  | S fuel' =>
      match scan_once fuel' s with
      | Some (v, tail) =>
          match skip_ws tail with
          | String "]" tail' => Some (JList (rev (v :: acc)), tail')
          | String "," tail' => scan_items fuel' (skip_ws tail') (v :: acc)
          | _ => None
          end
      | None => None
      end
  end

(** The members of an object, [s] standing at the opening quote of the
    next key; the object is built as [dict(pairs)]. *)
with scan_members (fuel : nat) (s : string) (acc : list (string * json))
  : option (json * string) :=
  match fuel with
  | O => None
  | S fuel' =>
      match s with
      | String "034" rest =>
          match scanstring rest with
          | Some (key, tail) =>
              match skip_ws tail with
              | String ":" tail1 =>
                  match scan_once fuel' (skip_ws tail1) with
                  | Some (v, tail2) =>
                      match skip_ws tail2 with
                      | String "}" tail3 =>
                          Some (JDict (dict_of_pairs (rev ((key, v) :: acc))), tail3)
                      | String "," tail3 =>
                          scan_members fuel' (skip_ws tail3) ((key, v) :: acc)
                      | _ => None
                      end
                  | None => None
                  end
              | _ => None
              end
          | None => None
          end
      | _ => None
      end
  end.

(** [json.loads]: one value between optional whitespace, nothing after
    it.  [None] is [JSONDecodeError]. *)
Definition loads (s : string) : option json :=
  match scan_once (S (String.length s)) (skip_ws s) with
  | Some (v, tail) =>
      match skip_ws tail with
      | EmptyString => Some v
      | _ => None
      end
  | None => None
  end.

(** ** Vocabulary of the round trip *)

(** The items after the first, as [dumps_at] writes them at depth [lvl]. *)
Fixpoint items_tail (lvl : nat) (l : list json) : string :=
  match l with
  | [] => EmptyString
  | y :: l' =>
      ("," ++ newline_indent lvl ++ dumps_at lvl y ++ items_tail lvl l')%string
  end.

(** The members after the first. *)
Fixpoint members_tail (lvl : nat) (l : list (string * json)) : string :=
  match l with
  | [] => EmptyString
  | (k, y) :: l' =>
      ("," ++ newline_indent lvl ++ encode_str k ++ ": " ++ dumps_at lvl y
       ++ members_tail lvl l')%string
  end.

(** Every object of the document is a Python [dict]: its keys are
    pairwise distinct. *)
Fixpoint distinct_keys (v : json) : Prop :=
  match v with
  | JList items =>
      (fix all (l : list json) : Prop :=
         match l with
         | [] => True
         | x :: l' => distinct_keys x /\ all l'
         end) items
  | JDict members =>
      NoDup (map fst members) /\
      (fix all (l : list (string * json)) : Prop :=
         match l with
         | [] => True
         | (_, x) :: l' => distinct_keys x /\ all l'
         end) members
  | _ => True
  end.

(** What may follow an integer literal without being read as part of it. *)
Definition ends_number (rest : string) : Prop :=
  match rest with
  | EmptyString => True
  | String c _ => is_digit c = false /\ starts_fraction rest = false
  end.

(** A decimal numeral that starts with a digit other than zero. *)
Definition nonzero_head (d : Decimal.uint) : Prop :=
  match d with
  | Decimal.Nil | Decimal.D0 _ => False
  | _ => True
  end.

(** The text of [v], at any depth and before any continuation, is read
    back as [v]. *)
Definition round_trips (v : json) : Prop :=
  distinct_keys v ->
  forall (lvl : nat) (rest : string) (fuel : nat),
    ends_number rest ->
    String.length (dumps_at lvl v) < fuel ->
    scan_once fuel (dumps_at lvl v ++ rest) = Some (v, rest).

(** Induction on documents, with the hypothesis available for every item
    of a list and every value of an object. *)
Section JsonInduction.
Variable P : json -> Prop.
Hypothesis Hnull : P JNull.
Hypothesis Hbool : forall b, P (JBool b).
Hypothesis Hint : forall z, P (JInt z).
Hypothesis Hstr : forall s, P (JStr s).
Hypothesis Hlist : forall items, Forall P items -> P (JList items).
Hypothesis Hdict :
  forall members, Forall (fun kv => P (snd kv)) members -> P (JDict members).

Fixpoint json_nested_ind (v : json) : P v :=
  match v with
  | JNull => Hnull
  | JBool b => Hbool b
  | JInt z => Hint z
  | JStr s => Hstr s
  | JList items =>
      Hlist items
        ((fix go (l : list json) : Forall P l :=
            match l with
            | [] => Forall_nil P
            | x :: l' => Forall_cons x (json_nested_ind x) (go l')
            end) items)
  | JDict members =>
      Hdict members
        ((fix go (l : list (string * json)) : Forall (fun kv => P (snd kv)) l :=
            match l with
            | [] => Forall_nil _
            | kv :: l' => Forall_cons kv (json_nested_ind (snd kv)) (go l')
            end) members)
  end.
End JsonInduction.

End Json.
Export Json.


(* ================================================================== *)
(** * NumPy and Pillow, as far as the script uses them *)
(* ================================================================== *)

Module Np.

(** Arrays are nested lists; a [float32] entry is the rational it denotes. *)
Definition array1 : Type := list Q.
Definition array3 : Type := list (list (list Q)).
Definition array4 : Type := list array3.

(** [np.argmax] on a vector: the first index holding the largest entry.
    [best_i] and [best] are the running maximum, [i] the index of the
    head of [l]. *)
Fixpoint argmax_from (best_i : nat) (best : Q) (i : nat) (l : array1) : nat :=
  match l with
  | [] => best_i
  | x :: rest =>
      if Qle_bool x best
      then argmax_from best_i best (S i) rest
      else argmax_from i x (S i) rest
  end.

(** [None] is the [ValueError] raised on an empty sequence. *)
Definition argmax (l : array1) : option nat :=
  match l with
  | [] => None
  | x :: rest => Some (argmax_from 0 x 1 rest)
  end.

(** [arr / 255.0] *)
Definition div255 (arr : array3) : array3 :=
  map (map (map (fun x => (x / 255)%Q))) arr.

(** [np.expand_dims(arr, axis=0)] *)
Definition expand_dims0 (arr : array3) : array4 := [arr].

(** [arr.shape] of a rank-4 array is [(n, h, w, c)]. *)
Definition has_shape4 (t : array4) (n h w c : nat) : Prop :=
  List.length t = n /\
  Forall (fun plane =>
    List.length plane = h /\
    Forall (fun row =>
      List.length row = w /\
      Forall (fun px => List.length px = c) row) plane) t.

End Np.

Module PIL.

(** An image: its mode, its size and its rows of pixels, a pixel being
    the list of its band values. *)
Record image : Type := {
  mode : string;
  width : nat;
  height : nat;
  pixels : list (list (list Z))
}.

(** The number of bands of a mode ([1], [L], [P], [I] and [F] have one). *)
Definition bands (m : string) : nat :=
  if String.eqb m "RGB" then 3
  else if existsb (String.eqb m) ["YCbCr"; "LAB"; "HSV"] then 3
  else if existsb (String.eqb m) ["RGBA"; "CMYK"; "RGBX"; "RGBa"] then 4
  else if existsb (String.eqb m) ["LA"; "La"; "PA"] then 2
  else 1.

(** A decoded image: [height] rows of [width] pixels, one byte per band. *)
Definition valid_image (im : image) : Prop :=
  List.length (pixels im) = height im /\
  Forall (fun row =>
    List.length row = width im /\
    Forall (fun px =>
      List.length px = bands (mode im) /\
      Forall (fun v => (0 <= v <= 255)%Z) px) row) (pixels im).

(** The two [Image] methods the script calls, with the part of their
    contract the script depends on: [convert] sets the mode and keeps the
    size, [resize] sets the size and keeps the mode.  How they interpolate
    or mix bands is left open. *)
Class Pillow : Type := {
  convert : string -> image -> image;
  resize : nat * nat -> image -> image;
  convert_RGB_spec : forall im,
    valid_image im ->
    valid_image (convert "RGB" im) /\ mode (convert "RGB" im) = "RGB" /\
    width (convert "RGB" im) = width im /\ height (convert "RGB" im) = height im;
  resize_spec : forall w h im,
    valid_image im ->
    valid_image (resize (w, h) im) /\ mode (resize (w, h) im) = mode im /\
    width (resize (w, h) im) = w /\ height (resize (w, h) im) = h
}.

(** [np.array(image).astype(np.float32)] *)
Definition to_array (im : image) : Np.array3 :=
  map (map (map inject_Z)) (pixels im).

End PIL.
Export PIL.

(* ================================================================== *)
(** * The script *)
(* ================================================================== *)

Module App.

(** ** Configuration *)

Definition DEFAULT_MODEL_PATH : string := "saved_models/efficientnetv2_b0.h5".
Definition LABELS_PATH : string := "saved_models/class_indices.json".
Definition IMG_SIZE : nat * nat := (224, 224).
Definition DATA_FILE : string := "scan_data.json".

(** ** The outside world *)

(** A deserialised Keras model: the class name of each of its layers and
    its forward pass on a batch. *)
Record keras_model : Type := {
  layers : list string;
  predict : Np.array4 -> list Np.array1
}.

(** The files the script touches.  A model file is kept as the model that
    [tf.keras.models.load_model] builds from it, a text file as its
    characters; [None] means that the path does not exist. *)
Record disk : Type := {
  model_files : string -> option keras_model;
  text_files : string -> option string
}.

(** [with open(path, "w") as f: f.write(txt)] *)
Definition write_text (path txt : string) (d : disk) : disk :=
  {| model_files := model_files d;
     text_files := fun p => if String.eqb p path then Some txt else text_files d p |}.

(** ** Utilities *)

(** [{int(k): v for k, v in inv_map.items()}] *)
Fixpoint coerce_keys (members : list (string * json)) (acc : dict Z json)
  : result (dict Z json) :=
  match members with
  | [] => OK acc
  | (k, v) :: rest =>
      match int_of_str k with
      | Some z => coerce_keys rest (dict_set z v acc)
      | None => Raise ValueError
      end
  end.

Definition is_rescaling_layer (class_name : string) : bool :=
  contains "Rescaling" class_name || contains "Preprocessing" class_name.

(** The body of the loader, as it runs when [st.cache_resource] holds no
    result for its arguments yet. *)
Definition load_model_and_labels (d : disk) (model_path labels_path : string)
  : result (keras_model * dict Z json * bool) :=
  match model_files d model_path with
  | None => Raise FileNotFoundError
  | Some model =>
      match text_files d labels_path with
      | None => Raise FileNotFoundError
      | Some txt =>
          match loads txt with
          | None => Raise JSONDecodeError
          | Some (JDict members) =>
              bind (coerce_keys members []) (fun inv_map =>
              let has_rescaling := existsb is_rescaling_layer (layers model) in
              OK (model, inv_map, has_rescaling))
          | Some _ => Raise AttributeError
          end
      end
  end.

Definition preprocess_image `{Pillow} (image : image) (target_size : nat * nat)
    (do_rescale : bool) : Np.array4 :=
  let image := resize target_size (convert "RGB" image) in
  let arr := to_array image in
  let arr := if do_rescale then Np.div255 arr else arr in
  Np.expand_dims0 arr.

Definition load_scan_data (d : disk) : result json :=
  match text_files d DATA_FILE with
  | Some txt => of_option JSONDecodeError (loads txt)
  | None => OK (JDict [])
  end.

Definition save_scan_data (data : json) (d : disk) : disk :=
  write_text DATA_FILE (dumps data) d.

(** ** Session state *)

Record session_state : Type := {
  scan_data : json;
  scan_triggered : bool;
  image_to_scan : option image;
  prediction : option (json * Q)
}.

Record world : Type := {
  session : session_state;
  files : disk
}.

(** A fresh session, lines 86-93. *)
Definition init_session (d : disk) : result session_state :=
  bind (load_scan_data d) (fun data =>
  OK {| scan_data := data; scan_triggered := false;
        image_to_scan := None; prediction := None |}).

(** ** Scanner tab *)

(** [inv_map.get(int(top_idx), str(top_idx))] *)
Definition resolve_label (inv_map : dict Z json) (top_idx : nat) : json :=
  match dict_get (Z.of_nat top_idx) inv_map with
  | Some label => label
  | None => JStr (str_of_nat top_idx)
  end.

(** From the predicted batch to the pair kept in the session,
    lines 122-126. *)
Definition top1 (inv_map : dict Z json) (preds : list Np.array1)
  : result (json * Q) :=
  match preds with
  | [] => Raise IndexError
  | probs :: _ =>
      match Np.argmax probs with
      | None => Raise ValueError
      | Some top_idx =>
          OK (resolve_label inv_map top_idx, nth top_idx probs 0%Q)
      end
  end.

(** The body of the [try] block up to the prediction, lines 117-126. *)
Definition scan `{Pillow} (d : disk) (img : image) : result (json * Q) :=
  bind (load_model_and_labels d DEFAULT_MODEL_PATH LABELS_PATH)
    (fun '(model, inv_map, has_rescaling) =>
  let x := preprocess_image img IMG_SIZE (negb has_rescaling) in
  top1 inv_map (predict model x)).

(** The "Scan Image" button: any exception is caught and shown, the
    session is then left as it was. *)
Definition scan_image `{Pillow} (img : image) (w : world) : world :=
  match scan (files w) img with
  | OK p =>
      {| session := {| scan_data := scan_data (session w);
                       scan_triggered := true;
                       image_to_scan := Some img;
                       prediction := Some p |};
         files := files w |}
  | Raise _ => w
  end.

(** ** Result tab *)

Definition is_str (needle : string) (v : json) : bool :=
  match v with
  | JStr s => String.eqb needle s
  | _ => false
  end.

(** [needle in v] for a [str] needle. *)
Definition str_in (needle : string) (v : json) : result bool :=
  match v with
  | JStr s => OK (contains needle s)
  | JList items => OK (existsb (is_str needle) items)
  | JDict members => OK (dict_mem needle members)
  | _ => Raise TypeError
  end.

(** Lines 146-147. *)
Definition category (label : json) : result string :=
  bind (str_in "Healthy" label) (fun is_healthy =>
  OK (if is_healthy then "Segar (Fresh)" else "Tidak Segar (Not Fresh)")).

(** The category shown for a held prediction; the confidence is shown
    next to it and plays no part. *)
Definition shown_category (p : json * Q) : result string :=
  let '(label, prob) := p in category label.

(** Lines 156-159 on the session mapping: [label not in data],
    [data[label] = []], [data[label].append(timestamp)]. *)
Definition append_scan (label timestamp : string) (data : json) : result json :=
  match data with
  | JDict members =>
      let members :=
        if negb (dict_mem label members)
        then dict_set label (JList []) members
        else members in
      match dict_get label members with
      | Some (JList stamps) =>
          OK (JDict (dict_set label (JList (stamps ++ [JStr timestamp])) members))
      | Some _ => Raise AttributeError
      | None => Raise KeyError
      end
  | _ => Raise TypeError
  end.

(** The "Confirm & Save" button, lines 141-164.  Without a held
    prediction there is no button and nothing happens; a label that is not
    a [str] cannot be tested against the mapping. *)
Definition confirm_and_save (timestamp : string) (w : world) : result world :=
  match scan_triggered (session w), prediction (session w) with
  | true, Some (JStr label, _) =>
      bind (append_scan label timestamp (scan_data (session w))) (fun data =>
      OK {| session := {| scan_data := data;
                          scan_triggered := false;
                          image_to_scan := image_to_scan (session w);
                          prediction := None |};
            files := save_scan_data data (files w) |})
  | true, Some (_, _) => Raise TypeError
  | _, _ => OK w
  end.

(** [len(v)] *)
Definition py_len (v : json) : result nat :=
  match v with
  | JList items => OK (List.length items)
  | JDict members => OK (List.length members)
  | JStr s => OK (String.length s)
  | _ => Raise TypeError
  end.

(** [{k: len(v) for k, v in items if marker in k}] *)
Fixpoint tally (marker : string) (items : list (string * json))
    (acc : dict string nat) : result (dict string nat) :=
  match items with
  | [] => OK acc
  | (k, v) :: rest =>
      if contains marker k
      then bind (py_len v) (fun n => tally marker rest (dict_set k n acc))
      else tally marker rest acc
  end.

Definition tally_of (marker : string) (data : json) : result (dict string nat) :=
  match data with
  | JDict members => tally marker members []
  | _ => Raise AttributeError
  end.

(** Lines 178 and 210. *)
Definition healthy_items (data : json) : result (dict string nat) :=
  tally_of "Healthy" data.

(** Lines 191 and 219. *)
Definition rotten_items (data : json) : result (dict string nat) :=
  tally_of "Rotten" data.

(** ** Data tab *)

(** Line 204: the session mapping is read again from the file. *)
Definition reload_data (w : world) : result world :=
  bind (load_scan_data (files w)) (fun data =>
  OK {| session := {| scan_data := data;
                      scan_triggered := scan_triggered (session w);
                      image_to_scan := image_to_scan (session w);
                      prediction := prediction (session w) |};
        files := files w |}).

(** The "Clear All Data" button, lines 227-229. *)
Definition clear_all_data (w : world) : world :=
  let data := JDict [] in
  {| session := {| scan_data := data;
                   scan_triggered := scan_triggered (session w);
                   image_to_scan := image_to_scan (session w);
                   prediction := prediction (session w) |};
     files := save_scan_data data (files w) |}.

End App.
Export App.

(* ================================================================== *)
(** * Vocabulary of the statements *)
(* ================================================================== *)

Module Store.

(** The scan store as section 3 of the design describes it: a mapping
    from class label to the sequence of its confirmation timestamps. *)
Definition store : Type := dict string (list string).

Definition stamps_doc (stamps : list string) : json := JList (map JStr stamps).

Definition entry_doc (e : string * list string) : string * json :=
  (fst e, stamps_doc (snd e)).

(** The JSON document that holds a store. *)
Definition store_doc (s : store) : json := JDict (map entry_doc s).

(** The keys of a Python [dict] are pairwise distinct. *)
Definition well_keyed (s : store) : Prop := NoDup (keys s).

(** Key presence implies a non-empty sequence. *)
Definition nonempty_entries (s : store) : Prop :=
  forall label stamps, dict_get label s = Some stamps -> stamps <> [].

(** The sequence recorded for a label, empty when the label is absent. *)
Definition stamps_of (label : string) (s : store) : list string :=
  match dict_get label s with
  | Some stamps => stamps
  | None => []
  end.

(** The labels of a store whose text contains [marker], each with the
    number of its timestamps, in the order of the store. *)
Definition counts (marker : string) (s : store) : dict string nat :=
  map (fun e => (fst e, List.length (snd e)))
      (filter (fun e => contains marker (fst e)) s).

End Store.
Export Store.

(* ================================================================== *)
(** * One user action at a time *)
(* ================================================================== *)

Module Ui.

(** The buttons of the three tabs, and the reload that the Data tab
    performs whenever it is drawn. *)
Inductive event : Type :=
| ScanImage (img : image)
| ConfirmSave (timestamp : string)
| ReloadData
| ClearAllData.

(** An exception that leaves a handler ends the run of the script; the
    session and the files stay as they were. *)
Definition settle (w : world) (r : result world) : world :=
  match r with
  | OK w' => w'
  | Raise _ => w
  end.

Definition step `{Pillow} (ev : event) (w : world) : world :=
  match ev with
  | ScanImage img => scan_image img w
  | ConfirmSave timestamp => settle w (confirm_and_save timestamp w)
  | ReloadData => settle w (reload_data w)
  | ClearAllData => clear_all_data w
  end.

(** The actions of a session, one after the other. *)
Definition run `{Pillow} (evs : list event) (w : world) : world :=
  fold_left (fun w ev => step ev w) evs w.

(** The session and the file hold the store [s]. *)
Definition holds (w : world) (s : store) : Prop :=
  scan_data (session w) = store_doc s /\
  load_scan_data (files w) = OK (store_doc s).

(** A world in which the prediction [(label, prob)] awaits confirmation
    over the store [s]. *)
Definition awaiting (label : string) (prob : Q) (s : store) (d : disk) : world :=
  {| session := {| scan_data := store_doc s;
                   scan_triggered := true;
                   image_to_scan := None;
                   prediction := Some (JStr label, prob) |};
     files := d |}.

(** The first testable property of section 8, read literally: a scan
    always yields a label found in the label mapping and a probability
    between 0 and 1. *)
Definition scan_label_always_mapped : Prop :=
  forall (P : Pillow) (d : disk) (img : image) (model : keras_model)
         (inv_map : dict Z json) (has_rescaling : bool) (label : json) (prob : Q),
    valid_image img ->
    load_model_and_labels d DEFAULT_MODEL_PATH LABELS_PATH
      = OK (model, inv_map, has_rescaling) ->
    scan d img = OK (label, prob) ->
    (exists idx, dict_get idx inv_map = Some label) /\ (0 <= prob <= 1)%Q.

End Ui.
Export Ui.

(* ================================================================== *)
(** * A reference Pillow and sample data *)
(* ================================================================== *)

Module Reference.

(** The three colour bands of a pixel: grey levels are repeated, an alpha
    band is dropped. *)
Definition rgb_of_pixel (px : list Z) : list Z :=
  match px with
  | [] => [0; 0; 0]%Z
  | [l] => [l; l; l]
  | [l; _] => [l; l; l]
  | r :: g :: b :: _ => [r; g; b]
  end.

Definition ref_convert (m : string) (im : image) : image :=
  if String.eqb m "RGB"
  then {| mode := "RGB"; width := width im; height := height im;
          pixels := map (map rgb_of_pixel) (pixels im) |}
  else im.

(** Nearest-neighbour sampling; outside the source the pixel is black. *)
Definition ref_resize (size : nat * nat) (im : image) : image :=
  let '(w, h) := size in
  let black := repeat 0%Z (bands (mode im)) in
  {| mode := mode im; width := w; height := h;
     pixels :=
       map (fun y =>
         map (fun x =>
           nth (x * width im / w) (nth (y * height im / h) (pixels im) []) black)
           (seq 0 w))
         (seq 0 h) |}.

(** A grey image of one row and two pixels. *)
Definition grey_1x2 : image :=
  {| mode := "L"; width := 2; height := 1; pixels := [[[0%Z]; [255%Z]]] |}.

(** A model without a rescaling layer that always answers [out]. *)
Definition constant_model (out : Np.array1) : keras_model :=
  {| layers := ["InputLayer"; "Conv2D"; "Dense"]; predict := fun _ => [out] |}.

Definition no_files : disk :=
  {| model_files := fun _ => None; text_files := fun _ => None |}.

(** A disk with the model [m] and the label file [labels] in place. *)
Definition installed (m : keras_model) (labels : string) : disk :=
  {| model_files := fun p => if String.eqb p DEFAULT_MODEL_PATH then Some m else None;
     text_files := fun p => if String.eqb p LABELS_PATH then Some labels else None |}.

(** A data file that holds no store. *)
Definition odd_document : string :=
  ("[3, {" ++ encode_str "a" ++ ": null}]")%string.

(** The store after one confirmed scan whose label is the index 2
    written in decimal. *)
Definition unmapped_scan_store : store := [("2", ["2024-05-01T10:00:00"])].

(** A label file that names class 0 only. *)
Definition one_label : string :=
  ("{" ++ encode_str "0" ++ ": " ++ encode_str "Apple__Healthy" ++ "}")%string.

(** A label file for two classes. *)
Definition two_labels : string :=
  ("{" ++ encode_str "0" ++ ": " ++ encode_str "Apple__Healthy" ++ ", "
   ++ encode_str "1" ++ ": " ++ encode_str "Apple__Rotten" ++ "}")%string.

End Reference.
Export Reference.

(* ================================================================== *)
(** * What the tabs display *)
(* ================================================================== *)

Module Render.

(** [a <= b] on the items of a tally, as Python orders tuples: by label,
    then by count. *)
Definition item_leb (a b : string * nat) : bool :=
  match String.compare (fst a) (fst b) with
  | Lt => true
  | Eq => snd a <=? snd b
  | Gt => false
  end.

Fixpoint insert_item (x : string * nat) (l : list (string * nat))
  : list (string * nat) :=
  match l with
  | [] => [x]
  | y :: l' => if item_leb x y then x :: l else y :: insert_item x l'
  end.

(** [sorted(items)].  The order on items is total and no two items of a
    dict are equal, so the sorted list does not depend on the sorting
    method; insertion is used here. *)
Definition py_sorted (items : list (string * nat)) : list (string * nat) :=
  fold_right insert_item [] items.

(** [f"{item}: **x{count}**"] *)
Definition format_line (item : string * nat) : string :=
  (fst item ++ ": **x" ++ str_of_nat (snd item) ++ "**")%string.

(** The body of a column, lines 179-183: one line per item in sorted
    order, or the message when the tally is empty. *)
Definition tally_lines (empty_msg : string) (items : dict string nat)
  : list string :=
  match items with
  | [] => [empty_msg]
  | _ :: _ => map format_line (py_sorted items)
  end.

(** The two columns of the Result tab, lines 178-183 and 191-196. *)
Definition fresh_column (data : json) : result (list string) :=
  bind (healthy_items data) (fun items =>
  OK (tally_lines "No fresh items yet." items)).

Definition not_fresh_column (data : json) : result (list string) :=
  bind (rotten_items data) (fun items =>
  OK (tally_lines "No not-fresh items yet." items)).

End Render.
Export Render.

(* ================================================================== *)
(** * Vocabulary of the further statements *)
(* ================================================================== *)

Module Further.

(** The members of a label file that numbers [labels] from [start]:
    key [str(i)] for the label at position [i]. *)
Fixpoint indexed_from (start : nat) (labels : list string)
  : list (string * json) :=
  match labels with
  | [] => []
  | l :: rest => (str_of_nat start, JStr l) :: indexed_from (S start) rest
  end.

Definition indexed_labels (labels : list string) : list (string * json) :=
  indexed_from 0 labels.

(** Lines 156-159 run once for each timestamp of [stamps], in order. *)
Fixpoint append_all (label : string) (stamps : list string) (data : json)
  : result json :=
  match stamps with
  | [] => OK data
  | t :: rest => bind (append_scan label t data) (append_all label rest)
  end.

(** The number a tally shows for a label: the length of its sequence. *)
Definition count_of (label : string) (s : store) : nat :=
  List.length (stamps_of label s).

(** Every label of the store carries exactly one of the two markers. *)
Definition one_marker_each (s : store) : Prop :=
  forall label, In label (keys s) ->
    contains "Healthy" label = negb (contains "Rotten" label).

(** The digits of a numeral read from the left, starting from [acc]. *)
Fixpoint uint_value (d : Decimal.uint) (acc : Z) : Z :=
  match d with
  | Decimal.Nil => acc
  | Decimal.D0 d' => uint_value d' (10 * acc)
  | Decimal.D1 d' => uint_value d' (10 * acc + 1)
  | Decimal.D2 d' => uint_value d' (10 * acc + 2)
  | Decimal.D3 d' => uint_value d' (10 * acc + 3)
  | Decimal.D4 d' => uint_value d' (10 * acc + 4)
  | Decimal.D5 d' => uint_value d' (10 * acc + 5)
  | Decimal.D6 d' => uint_value d' (10 * acc + 6)
  | Decimal.D7 d' => uint_value d' (10 * acc + 7)
  | Decimal.D8 d' => uint_value d' (10 * acc + 8)
  | Decimal.D9 d' => uint_value d' (10 * acc + 9)
  end%Z.

(** A session with nothing scanned yet over the store [s]. *)
Definition idle (s : store) (d : disk) : world :=
  {| session := {| scan_data := store_doc s;
                   scan_triggered := false;
                   image_to_scan := None;
                   prediction := None |};
     files := d |}.

End Further.
Export Further.

(** Lengths of concatenated texts, pushed down to their pieces with the
    equations collected in the [lengths] database. *)
Create Rewrite HintDb lengths.

Ltac len_norm :=
  repeat (progress (cbn [append String.length] in *;
                    autorewrite with lengths in * )).

(* ================================================================== *)
(** * Facts about the Python fragment *)
(* ================================================================== *)

Section StringFacts.

Lemma append_assoc (a b c : string) :
  ((a ++ b) ++ c = a ++ (b ++ c))%string.
Proof. induction a as [|x a IH]; simpl; [reflexivity | now rewrite IH]. Qed.

Lemma append_nil_r (a : string) : (a ++ "")%string = a.
Proof. induction a as [|x a IH]; simpl; [reflexivity | now rewrite IH]. Qed.

Lemma length_append (a b : string) :
  String.length (a ++ b) = String.length a + String.length b.
Proof. induction a as [|x a IH]; simpl; [reflexivity | now rewrite IH]. Qed.

Lemma prefix_iff (p s : string) :
  String.prefix p s = true <-> exists post, s = (p ++ post)%string.
Proof.
  revert s; induction p as [|c p IH]; intros s.
  - split; [intros _; exists s; reflexivity | intros _; destruct s; reflexivity].
  - destruct s as [|d s]; simpl.
    + split; [discriminate | intros [post E]; discriminate].
    + destruct (Ascii.ascii_dec c d) as [->|Hne].
      * rewrite IH. split; intros [post E]; exists post; congruence.
      * split; [discriminate | intros [post E]; congruence].
Qed.

(** [needle in hay] holds exactly when [hay] splits around [needle]. *)
Lemma contains_iff (needle hay : string) :
  contains needle hay = true <->
  exists pre post, hay = (pre ++ needle ++ post)%string.
Proof.
  induction hay as [|c hay IH].
  - cbn [contains]. rewrite orb_false_r, prefix_iff. split.
    + intros [post E]. exists EmptyString, post. exact E.
    + intros [pre [post E]]. destruct pre; [exists post; exact E | discriminate].
  - cbn [contains]. rewrite orb_true_iff, prefix_iff, IH. split.
    + intros [[post E] | [pre [post E]]].
      * exists EmptyString, post. exact E.
      * exists (String c pre), post. simpl. now rewrite E.
    + intros [pre [post E]]. destruct pre as [|d pre].
      * left. exists post. exact E.
      * right. exists pre, post. simpl in E. congruence.
Qed.

End StringFacts.

#[global] Hint Rewrite length_append : lengths.

Section DictFacts.
Context {K V : Type} `{EqKey K}.
Implicit Types (k : K) (v : V) (d : dict K V).

Lemma keqb_refl k : keqb k k = true.
Proof. destruct (keqb_spec k k); congruence. Qed.

Lemma keqb_neq k k' : k <> k' -> keqb k k' = false.
Proof. intros Hne. destruct (keqb_spec k k'); congruence. Qed.

Lemma dict_get_set_same k v d : dict_get k (dict_set k v d) = Some v.
Proof.
  induction d as [|[k' v'] d IH]; simpl.
  - now rewrite keqb_refl.
  - destruct (keqb_spec k k') as [->|Hne]; simpl.
    + now rewrite keqb_refl.
    + now rewrite keqb_neq.
Qed.

Lemma dict_get_set_other k k' v d :
  k <> k' -> dict_get k' (dict_set k v d) = dict_get k' d.
Proof.
  intros Hne. induction d as [|[k0 v0] d IH]; simpl.
  - rewrite keqb_neq; congruence.
  - destruct (keqb_spec k k0) as [->|Hne0]; simpl.
    + rewrite keqb_neq; congruence.
    + now rewrite IH.
Qed.

Lemma dict_get_None_iff k d : dict_get k d = None <-> ~ In k (keys d).
Proof.
  induction d as [|[k' v'] d IH]; simpl.
  - tauto.
  - destruct (keqb_spec k k') as [->|Hne].
    + split; [discriminate | intros Hn; exfalso; apply Hn; now left].
    + rewrite IH. split; [intros Hn [E|Hin]; congruence | tauto].
Qed.

Lemma dict_mem_true_iff k d : dict_mem k d = true <-> In k (keys d).
Proof.
  unfold dict_mem. destruct (dict_get k d) eqn:E.
  - split; [intros _ | reflexivity].
    destruct (in_dec (fun x y => reflect_dec _ _ (keqb_spec x y)) k (keys d))
      as [Hin|Hn]; [exact Hin|].
    apply dict_get_None_iff in Hn. congruence.
  - apply dict_get_None_iff in E. split; [discriminate | tauto].
Qed.

Lemma keys_set_present k v d : In k (keys d) -> keys (dict_set k v d) = keys d.
Proof.
  induction d as [|[k' v'] d IH]; simpl; [tauto|].
  intros Hin. destruct (keqb_spec k k') as [->|Hne]; simpl; [reflexivity|].
  f_equal. apply IH. destruct Hin; congruence.
Qed.

Lemma keys_set_absent k v d :
  ~ In k (keys d) -> dict_set k v d = d ++ [(k, v)].
Proof.
  induction d as [|[k' v'] d IH]; simpl; [reflexivity|].
  intros Hn. destruct (keqb_spec k k') as [->|Hne]; [tauto|].
  f_equal. apply IH. tauto.
Qed.

Lemma keys_set_incl k k' v d : In k' (keys d) -> In k' (keys (dict_set k v d)).
Proof.
  induction d as [|[k0 v0] d IH]; simpl; [tauto|].
  destruct (keqb_spec k k0) as [->|Hne]; simpl; tauto.
Qed.

Lemma NoDup_keys_set k v d : NoDup (keys d) -> NoDup (keys (dict_set k v d)).
Proof.
  intros Hnd.
  destruct (in_dec (fun x y => reflect_dec _ _ (keqb_spec x y)) k (keys d))
    as [Hin|Hn].
  - now rewrite keys_set_present.
  - rewrite keys_set_absent by assumption. unfold keys. rewrite map_app. simpl.
    apply NoDup_app; [exact Hnd | repeat constructor; simpl; tauto |].
    intros x Hx [<-|[]]. exact (Hn Hx).
Qed.

(** Building a dict from pairs whose keys are distinct keeps the pairs
    as they are. *)
Lemma dict_of_pairs_fold (pairs : list (K * V)) d :
  NoDup (keys (d ++ pairs)) ->
  fold_left (fun d kv => dict_set (fst kv) (snd kv) d) pairs d = d ++ pairs.
Proof.
  revert d. induction pairs as [|[k v] pairs IH]; intros d Hnd; simpl.
  - now rewrite app_nil_r.
  - assert (Hk : ~ In k (keys d)).
    { unfold keys in *. rewrite map_app in Hnd. simpl in Hnd.
      apply NoDup_remove_2 in Hnd. intros Hin. apply Hnd.
      apply in_or_app. now left. }
    rewrite keys_set_absent by exact Hk.
    rewrite IH; rewrite <- app_assoc; simpl; [reflexivity | exact Hnd].
Qed.

Lemma dict_of_pairs_NoDup (pairs : list (K * V)) :
  NoDup (keys pairs) -> dict_of_pairs pairs = pairs.
Proof. intros Hnd. unfold dict_of_pairs. now rewrite dict_of_pairs_fold. Qed.

End DictFacts.

(* ================================================================== *)
(** * Facts about the JSON encoder and decoder *)
(* ================================================================== *)

Section JsonFacts.

Lemma scanstring_escape_char (c : ascii) (tail : string) :
  scanstring (escape_char c ++ tail) = cons_char c (scanstring tail).
Proof. destruct c as [[] [] [] [] [] [] [] []]; reflexivity. Qed.

(** A string literal is read back as the string it encodes. *)
Lemma scanstring_escape (s rest : string) :
  scanstring (escape s ++ String "034" rest) = Some (s, rest).
Proof.
  induction s as [|c s IH].
  - reflexivity.
  - change (escape (String c s)) with (escape_char c ++ escape s)%string.
    now rewrite append_assoc, scanstring_escape_char, IH.
Qed.

Lemma encode_str_app (s rest : string) :
  (encode_str s ++ rest)%string = String "034" (escape s ++ String "034" rest).
Proof. unfold encode_str. simpl. now rewrite append_assoc. Qed.

Lemma length_encode_str (s : string) : 2 <= String.length (encode_str s).
Proof. unfold encode_str. simpl. rewrite length_append. simpl. lia. Qed.

Lemma skip_ws_cons (c : ascii) (s : string) :
  skip_ws (String c s) = if is_ws c then skip_ws s else String c s.
Proof. reflexivity. Qed.

Lemma skip_ws_spaces (n : nat) (s : string) :
  skip_ws (spaces n ++ s) = skip_ws s.
Proof. induction n as [|n IH]; simpl; [reflexivity | exact IH]. Qed.

Lemma skip_ws_newline (lvl : nat) (s : string) :
  skip_ws (newline_indent lvl ++ s) = skip_ws s.
Proof. unfold newline_indent. cbn [append skip_ws]. apply skip_ws_spaces. Qed.

Lemma skip_ws_encode_str (s rest : string) :
  skip_ws (encode_str s ++ rest) = (encode_str s ++ rest)%string.
Proof. rewrite encode_str_app. reflexivity. Qed.

Lemma scan_once_str (fuel : nat) (s rest : string) :
  1 <= fuel -> scan_once fuel (encode_str s ++ rest) = Some (JStr s, rest).
Proof.
  intros Hf. destruct fuel as [|fuel]; [lia|].
  rewrite encode_str_app. cbn [scan_once]. cbn [Ascii.eqb Bool.eqb].
  now rewrite scanstring_escape.
Qed.

Lemma scan_once_open_dict (fuel : nat) (s k body : string) :
  skip_ws s = (encode_str k ++ body)%string ->
  scan_once (S fuel) (String "{" s) = scan_members fuel (encode_str k ++ body) [].
Proof.
  intros E. cbn [scan_once]. cbn [Ascii.eqb Bool.eqb]. rewrite E.
  rewrite encode_str_app. reflexivity.
Qed.

(** ** The encoder and the decoder on any document *)

Lemma dumps_at_list (lvl : nat) (x : json) (xs : list json) :
  dumps_at lvl (JList (x :: xs))
  = ("[" ++ newline_indent (S lvl) ++ dumps_at (S lvl) x ++ items_tail (S lvl) xs
     ++ newline_indent lvl ++ "]")%string.
Proof.
  cbn [dumps_at]. do 3 f_equal. f_equal.
  induction xs as [|y xs IH]; [reflexivity|].
  cbn [items_tail]. now rewrite IH.
Qed.

Lemma dumps_at_dict (lvl : nat) (k : string) (x : json) (xs : list (string * json)) :
  dumps_at lvl (JDict ((k, x) :: xs))
  = ("{" ++ newline_indent (S lvl) ++ encode_str k ++ ": " ++ dumps_at (S lvl) x
     ++ members_tail (S lvl) xs ++ newline_indent lvl ++ "}")%string.
Proof.
  cbn [dumps_at]. do 5 f_equal. f_equal.
  induction xs as [|[k' y] xs IH]; [reflexivity|].
  cbn [members_tail]. now rewrite IH.
Qed.

(** ** Integer literals *)

Lemma scan_digits_uint (d : Decimal.uint) :
  forall (acc : positive) (rest : string),
    ends_number rest ->
    scan_digits (Z.pos acc) (NilEmpty.string_of_uint d ++ rest)
    = (Z.pos (Pos.of_uint_acc d acc), rest).
Proof.
  induction d; intros acc rest Hrest; cbn [NilEmpty.string_of_uint append].
  1: { cbn [Pos.of_uint_acc]. destruct rest as [|c rest]; [reflexivity|].
       destruct Hrest as [Hd _]. cbn [scan_digits]. now rewrite Hd. }
  all: cbn [scan_digits Pos.of_uint_acc];
       match goal with |- context [is_digit ?c] => change (is_digit c) with true end;
       cbn iota;
       match goal with
       | |- scan_digits ?a _ = (Z.pos (Pos.of_uint_acc _ ?b), _) =>
           replace a with (Z.pos b);
           [|match goal with |- context [digit_val ?c] =>
               let v := eval vm_compute in (digit_val c) in
               change (digit_val c) with v end; lia]
       end; apply IHd; exact Hrest.
Qed.

Lemma to_uint_nonzero_head (p : positive) : nonzero_head (Pos.to_uint p).
Proof.
  pose proof (DecimalPos.Unsigned.to_of (Pos.to_uint p)) as Hnorm.
  rewrite DecimalPos.Unsigned.of_to in Hnorm. cbn [N.to_uint] in Hnorm.
  pose proof (DecimalPos.Unsigned.to_uint_nonzero p) as Hnz.
  pose proof (DecimalPos.Unsigned.to_uint_nonnil p) as Hnn.
  destruct (Pos.to_uint p) as [|u| | | | | | | | |] eqn:E; cbn; try exact I.
  - congruence.
  - rewrite DecimalFacts.unorm_D0 in Hnorm.
    destruct (Decimal.uint_eq_dec u Decimal.Nil) as [->|Hu]; [now elim Hnz|].
    pose proof (DecimalFacts.nb_digits_unorm u Hu) as Hle. rewrite <- Hnorm in Hle.
    cbn [Decimal.nb_digits] in Hle. lia.
Qed.

Lemma ends_number_fraction (rest : string) :
  ends_number rest -> starts_fraction rest = false.
Proof. destruct rest; [reflexivity | intros [_ H]; exact H]. Qed.

Lemma scan_nat_pos (p : positive) (rest : string) :
  ends_number rest ->
  scan_nat (NilEmpty.string_of_uint (Pos.to_uint p) ++ rest) = Some (Z.pos p, rest).
Proof.
  intros Hrest.
  pose proof (DecimalPos.Unsigned.of_to p) as Hof.
  pose proof (to_uint_nonzero_head p) as Hhead.
  destruct (Pos.to_uint p) as [|u|u|u|u|u|u|u|u|u|u]; try contradiction;
    cbn [Pos.of_uint] in Hof; injection Hof as Hof;
    cbn [NilEmpty.string_of_uint append scan_nat];
    match goal with |- context [Ascii.eqb ?c "0"] =>
      change (Ascii.eqb c "0") with false; change (is_digit c) with true;
      let v := eval vm_compute in (digit_val c) in change (digit_val c) with v
    end; cbn iota;
    rewrite scan_digits_uint by exact Hrest;
    rewrite Hof, (ends_number_fraction rest Hrest); reflexivity.
Qed.

Lemma scan_once_digit (fuel : nat) (c : ascii) (r : string) :
  is_digit c = true ->
  scan_once (S fuel) (String c r)
  = match scan_nat (String c r) with
    | Some (n, tail) => Some (JInt n, tail)
    | None => None
    end.
Proof.
  destruct c as [[] [] [] [] [] [] [] []]; intros Hd;
    try discriminate Hd; reflexivity.
Qed.

Lemma string_of_uint_head (d : Decimal.uint) :
  d <> Decimal.Nil ->
  exists c r, NilEmpty.string_of_uint d = String c r /\ is_digit c = true.
Proof.
  destruct d; [congruence|..]; intros _; eexists; eexists; split; reflexivity.
Qed.

Lemma NilZero_nonnil (d : Decimal.uint) :
  d <> Decimal.Nil -> NilZero.string_of_uint d = NilEmpty.string_of_uint d.
Proof. destruct d; [congruence|..]; reflexivity. Qed.

Lemma scan_once_int (z : Z) (rest : string) (fuel : nat) :
  ends_number rest -> 1 <= fuel ->
  scan_once fuel (encode_int z ++ rest) = Some (JInt z, rest).
Proof.
  intros Hrest Hfuel. destruct fuel as [|fuel]; [lia|].
  unfold encode_int. destruct z as [|p|p]; cbn [Z.to_int NilZero.string_of_int].
  - change (scan_once (S fuel) (String "0" rest) = Some (JInt 0, rest)).
    rewrite scan_once_digit by reflexivity. cbn [scan_nat].
    change (Ascii.eqb "0" "0") with true. cbn iota.
    now rewrite (ends_number_fraction rest Hrest).
  - rewrite NilZero_nonnil by apply DecimalPos.Unsigned.to_uint_nonnil.
    destruct (string_of_uint_head (Pos.to_uint p) (DecimalPos.Unsigned.to_uint_nonnil p))
      as (c & r & E & Hc).
    pose proof (scan_nat_pos p rest Hrest) as Hscan.
    rewrite E in *. cbn [append] in *.
    now rewrite scan_once_digit, Hscan.
  - rewrite NilZero_nonnil by apply DecimalPos.Unsigned.to_uint_nonnil.
    cbn [append scan_once].
    change (Ascii.eqb "-" "034") with false. change (Ascii.eqb "-" "{") with false.
    change (Ascii.eqb "-" "[") with false. change (Ascii.eqb "-" "n") with false.
    change (Ascii.eqb "-" "t") with false. change (Ascii.eqb "-" "f") with false.
    change (Ascii.eqb "-" "-") with true. cbn iota.
    now rewrite scan_nat_pos.
Qed.

Lemma distinct_keys_list (items : list json) :
  distinct_keys (JList items) <-> Forall distinct_keys items.
Proof.
  cbn [distinct_keys]. induction items as [|x items IH].
  - split; [constructor | exact (fun _ => I)].
  - rewrite IH. split.
    + intros [Hx Hl]. now constructor.
    + intros Hall. inversion Hall; subst. now split.
Qed.

Lemma distinct_keys_dict (members : list (string * json)) :
  distinct_keys (JDict members) <->
  NoDup (map fst members) /\ Forall (fun kv => distinct_keys (snd kv)) members.
Proof.
  cbn [distinct_keys]. apply and_iff_compat_l.
  induction members as [|[k x] members IH].
  - split; [constructor | exact (fun _ => I)].
  - rewrite IH. split.
    + intros [Hx Hl]. now constructor.
    + intros Hall. inversion Hall; subst. now split.
Qed.

Lemma digit_starts_value (c : ascii) :
  is_digit c = true -> is_ws c = false /\ c <> "]"%char.
Proof.
  destruct c as [[] [] [] [] [] [] [] []]; intros Hd; try discriminate Hd;
    (split; [reflexivity | discriminate]).
Qed.

Lemma dumps_at_head (lvl : nat) (v : json) :
  exists c r, dumps_at lvl v = String c r /\ is_ws c = false /\ c <> "]"%char.
Proof.
  assert (Hlit : forall (c : ascii) (r : string),
             is_ws c = false -> c <> "]"%char ->
             exists c' r', String c r = String c' r' /\ is_ws c' = false /\ c' <> "]"%char).
  { intros c r Hws Hc. exists c, r. tauto. }
  destruct v as [|b|z|s|items|members].
  - apply Hlit; [reflexivity | discriminate].
  - destruct b; apply Hlit; (reflexivity || discriminate).
  - cbn [dumps_at]. unfold encode_int.
    destruct z as [|p|p]; cbn [Z.to_int NilZero.string_of_int].
    + apply Hlit; [reflexivity | discriminate].
    + rewrite NilZero_nonnil by apply DecimalPos.Unsigned.to_uint_nonnil.
      destruct (string_of_uint_head (Pos.to_uint p) (DecimalPos.Unsigned.to_uint_nonnil p))
        as (c & r & E & Hc).
      exists c, r. split; [exact E | apply digit_starts_value, Hc].
    + apply Hlit; [reflexivity | discriminate].
  - apply Hlit; [reflexivity | discriminate].
  - destruct items; apply Hlit; (reflexivity || discriminate).
  - destruct members as [|[k x] members]; apply Hlit; (reflexivity || discriminate).
Qed.

Lemma skip_ws_dumps_at (lvl : nat) (v : json) (rest : string) :
  skip_ws (dumps_at lvl v ++ rest) = (dumps_at lvl v ++ rest)%string.
Proof.
  destruct (dumps_at_head lvl v) as (c & r & E & Hws & _). rewrite E.
  cbn [append]. now rewrite skip_ws_cons, Hws.
Qed.

Lemma scan_once_open_list_any (fuel : nat) (s : string) (c : ascii) (r : string) :
  skip_ws s = String c r -> c <> "]"%char ->
  scan_once (S fuel) (String "[" s) = scan_items fuel (String c r) [].
Proof.
  intros E Hc. cbn [scan_once]. cbn [Ascii.eqb Bool.eqb]. rewrite E.
  destruct c as [[] [] [] [] [] [] [] []]; try reflexivity. now elim Hc.
Qed.

Lemma ends_number_comma (s : string) : ends_number (String "," s).
Proof. split; reflexivity. Qed.

Lemma ends_number_newline (lvl : nat) (s : string) :
  ends_number (newline_indent lvl ++ s).
Proof. split; reflexivity. Qed.

Lemma scan_items_dumps (xs : list json) :
  forall (x : json) (acc : list json) (rest : string) (lvl lvl' fuel : nat),
    Forall round_trips (x :: xs) -> Forall distinct_keys (x :: xs) ->
    String.length (dumps_at lvl x ++ items_tail lvl xs) + 2 <= fuel ->
    scan_items fuel
      (dumps_at lvl x ++ items_tail lvl xs ++ newline_indent lvl' ++ String "]" rest) acc
    = Some (JList (rev acc ++ x :: xs), rest).
Proof.
  induction xs as [|y xs IH]; intros x acc rest lvl lvl' fuel Hrt Hdk Hfuel;
    inversion Hrt as [|? ? Hx Hrt']; inversion Hdk as [|? ? Hdx Hdk']; subst;
    (destruct fuel as [|fuel]; [lia|]); cbn [scan_items];
    rewrite length_append in Hfuel.
  - cbn [items_tail append] in *.
    rewrite (Hx Hdx) by (try apply ends_number_newline; lia).
    rewrite skip_ws_newline. reflexivity.
  - cbn [items_tail] in *. rewrite !append_assoc. cbn [append].
    rewrite (Hx Hdx) by (try apply ends_number_comma; lia).
    rewrite (skip_ws_cons ","). change (is_ws ",") with false. cbn iota.
    rewrite skip_ws_newline, skip_ws_dumps_at.
    rewrite IH; try assumption.
    + cbn [rev]. now rewrite <- app_assoc.
    + len_norm. lia.
Qed.

Lemma scan_members_dumps (xs : list (string * json)) :
  forall (k : string) (x : json) (acc : list (string * json)) (rest : string)
         (lvl lvl' fuel : nat),
    Forall (fun kv => round_trips (snd kv)) ((k, x) :: xs) ->
    Forall (fun kv => distinct_keys (snd kv)) ((k, x) :: xs) ->
    String.length (encode_str k ++ ": " ++ dumps_at lvl x ++ members_tail lvl xs) < fuel ->
    scan_members fuel
      (encode_str k ++ ": " ++ dumps_at lvl x ++ members_tail lvl xs
       ++ newline_indent lvl' ++ String "}" rest) acc
    = Some (JDict (dict_of_pairs (rev acc ++ (k, x) :: xs)), rest).
Proof.
  induction xs as [|[k' y] xs IH]; intros k x acc rest lvl lvl' fuel Hrt Hdk Hfuel;
    inversion Hrt as [|? ? Hx Hrt']; inversion Hdk as [|? ? Hdx Hdk']; subst;
    cbn [snd] in Hx, Hdx;
    (destruct fuel as [|fuel]; [cbn in Hfuel; lia|]);
    rewrite encode_str_app; cbn [scan_members];
    rewrite scanstring_escape;
    cbn [append]; rewrite (skip_ws_cons ":");
    change (is_ws ":") with false; cbn iota;
    rewrite (skip_ws_cons " "); change (is_ws " ") with true; cbn iota;
    rewrite skip_ws_dumps_at;
    pose proof (length_encode_str k); len_norm.
  - cbn [members_tail append] in *.
    rewrite (Hx Hdx) by (try apply ends_number_newline; lia).
    rewrite skip_ws_newline. reflexivity.
  - cbn [members_tail] in *. rewrite !append_assoc. cbn [append].
    rewrite (Hx Hdx) by (try apply ends_number_comma; lia).
    rewrite (skip_ws_cons ","). change (is_ws ",") with false. cbn iota.
    rewrite skip_ws_newline, skip_ws_encode_str.
    transitivity
      (Some (JDict (dict_of_pairs (rev ((k, x) :: acc) ++ (k', y) :: xs)), rest)).
    + apply (IH k' y); try assumption. len_norm. lia.
    + cbn [rev]. now rewrite <- app_assoc.
Qed.

Lemma substring_skip (lit rest : string) :
  String.substring (String.length lit)
                   (String.length (lit ++ rest) - String.length lit) (lit ++ rest)
  = rest.
Proof.
  induction lit as [|c lit IH]; cbn [append String.length String.substring].
  - rewrite Nat.sub_0_r. induction rest as [|c rest IH]; cbn; [reflexivity | now rewrite IH].
  - exact IH.
Qed.

Lemma scan_literal_here (lit : string) (v : json) (rest : string) :
  scan_literal lit v (lit ++ rest) = Some (v, rest).
Proof.
  unfold scan_literal.
  replace (String.prefix lit (lit ++ rest)) with true
    by (symmetry; apply prefix_iff; now exists rest).
  now rewrite substring_skip.
Qed.

(** The decoder reads the text of any document back, at any depth and
    before any continuation that cannot extend a number. *)
Lemma scan_once_dumps (v : json) : round_trips v.
Proof.
  induction v as [|b|z|s|items IH|members IH] using json_nested_ind;
    intros Hdk lvl rest fuel Hrest Hfuel;
    (destruct fuel as [|fuel]; [lia|]).
  - exact (scan_literal_here "null" JNull rest).
  - destruct b.
    + exact (scan_literal_here "true" (JBool true) rest).
    + exact (scan_literal_here "false" (JBool false) rest).
  - apply scan_once_int; [exact Hrest | lia].
  - apply scan_once_str. lia.
  - destruct items as [|x xs]; [reflexivity|].
    apply distinct_keys_list in Hdk.
    rewrite dumps_at_list in *. rewrite !append_assoc. cbn [append].
    destruct (dumps_at_head (S lvl) x) as (c & r & E & Hws & Hc).
    erewrite scan_once_open_list_any;
      [| rewrite skip_ws_newline, skip_ws_dumps_at, E; reflexivity | exact Hc].
    change (scan_items fuel
              (String c r ++ items_tail (S lvl) xs ++ newline_indent lvl
               ++ String "]" rest) []
            = Some (JList (x :: xs), rest)).
    rewrite <- E.
    rewrite scan_items_dumps; try assumption; [reflexivity|].
    len_norm. lia.
  - destruct members as [|[k x] xs]; [reflexivity|].
    apply distinct_keys_dict in Hdk. destruct Hdk as [Hnd Hdk].
    rewrite dumps_at_dict in *. rewrite !append_assoc. cbn [append].
    erewrite scan_once_open_dict
      by (rewrite skip_ws_newline; apply skip_ws_encode_str).
    etransitivity;
      [apply (scan_members_dumps xs k x [] rest (S lvl) lvl); try assumption;
       len_norm; lia|].
    cbn [rev app]. now rewrite dict_of_pairs_NoDup.
Qed.

(** [json.loads(json.dumps(v, indent=2)) == v] for every document [v]. *)
Theorem loads_dumps (v : json) : distinct_keys v -> loads (dumps v) = Some v.
Proof.
  intros Hdk. unfold loads, dumps.
  rewrite <- (append_nil_r (dumps_at 0 v)) at 2.
  rewrite skip_ws_dumps_at, append_nil_r.
  rewrite <- (append_nil_r (dumps_at 0 v)) at 2.
  rewrite (scan_once_dumps v Hdk) by (try exact I; lia).
  reflexivity.
Qed.

Lemma keys_entry_doc (s : store) : keys (map entry_doc s) = keys s.
Proof. unfold keys. rewrite map_map. reflexivity. Qed.

Lemma distinct_keys_store (s : store) : well_keyed s -> distinct_keys (store_doc s).
Proof.
  intros Hnd. apply distinct_keys_dict. split.
  - change (map fst (map entry_doc s)) with (keys (map entry_doc s)).
    now rewrite keys_entry_doc.
  - apply Forall_map, Forall_forall. intros [k stamps] _. cbn [entry_doc fst snd].
    apply distinct_keys_list, Forall_map, Forall_forall. intros t _. exact I.
Qed.

(** What [json.dump] writes for a store, [json.load] reads back. *)
Lemma loads_dumps_store (s : store) :
  well_keyed s -> loads (dumps (store_doc s)) = Some (store_doc s).
Proof. intros Hnd. apply loads_dumps, distinct_keys_store, Hnd. Qed.

End JsonFacts.

(* ================================================================== *)
(** * The scan store *)
(* ================================================================== *)

Section StoreFacts.

Lemma dict_set_twice {K V} `{EqKey K} (k : K) (v1 v2 : V) (d : dict K V) :
  dict_set k v2 (dict_set k v1 d) = dict_set k v2 d.
Proof.
  induction d as [|[k' v'] d IH]; simpl.
  - now rewrite keqb_refl.
  - destruct (keqb_spec k k') as [->|Hne]; simpl.
    + now rewrite keqb_refl.
    + rewrite keqb_neq by assumption. now rewrite IH.
Qed.

Lemma dict_get_entry_doc (k : string) (s : store) :
  dict_get k (map entry_doc s) = option_map stamps_doc (dict_get k s).
Proof.
  induction s as [|[k' v'] s IH]; simpl; [reflexivity|].
  destruct (String.eqb k k'); [reflexivity | exact IH].
Qed.

Lemma dict_mem_entry_doc (k : string) (s : store) :
  dict_mem k (map entry_doc s) = dict_mem k s.
Proof.
  unfold dict_mem. rewrite dict_get_entry_doc. now destruct (dict_get k s).
Qed.

Lemma dict_set_entry_doc (k : string) (v : list string) (s : store) :
  dict_set k (stamps_doc v) (map entry_doc s) = map entry_doc (dict_set k v s).
Proof.
  induction s as [|[k' v'] s IH]; simpl; [reflexivity|].
  destruct (String.eqb k k'); simpl; [reflexivity | now rewrite IH].
Qed.

(** On a store, lines 156-159 extend the sequence of [label] by one
    timestamp, starting it when the label is new. *)
Lemma append_scan_store (label timestamp : string) (s : store) :
  append_scan label timestamp (store_doc s)
  = OK (store_doc (dict_set label (stamps_of label s ++ [timestamp]) s)).
Proof.
  unfold append_scan, store_doc, stamps_of.
  rewrite dict_mem_entry_doc. unfold dict_mem.
  destruct (dict_get label s) as [stamps|] eqn:Hget; cbn [negb].
  - rewrite dict_get_entry_doc, Hget. cbn [option_map stamps_doc].
    rewrite <- dict_set_entry_doc. unfold stamps_doc. now rewrite map_app.
  - change (JList []) with (stamps_doc []).
    rewrite dict_set_entry_doc, dict_get_entry_doc, dict_get_set_same.
    cbn [option_map stamps_doc map app].
    change (JList [JStr timestamp]) with (stamps_doc [timestamp]).
    rewrite !dict_set_entry_doc, dict_set_twice. reflexivity.
Qed.

Lemma text_files_write_same (path txt : string) (d : disk) :
  text_files (write_text path txt d) path = Some txt.
Proof. unfold write_text. cbn. now rewrite String.eqb_refl. Qed.

(** What was just saved is what the next load returns. *)
Lemma load_saved_store (s : store) (d : disk) :
  well_keyed s ->
  text_files d DATA_FILE = Some (dumps (store_doc s)) ->
  load_scan_data d = OK (store_doc s).
Proof.
  intros Hnd Htxt. unfold load_scan_data.
  rewrite Htxt, loads_dumps_store by exact Hnd. reflexivity.
Qed.

Lemma well_keyed_set (label : string) (stamps : list string) (s : store) :
  well_keyed s -> well_keyed (dict_set label stamps s).
Proof. apply NoDup_keys_set. Qed.

Lemma nonempty_entries_set (label : string) (stamps : list string) (s : store) :
  stamps <> [] -> nonempty_entries s ->
  nonempty_entries (dict_set label stamps s).
Proof.
  intros Hne Hinv k v Hget.
  destruct (String.eqb_spec label k) as [<-|Hk].
  - rewrite dict_get_set_same in Hget. congruence.
  - rewrite dict_get_set_other in Hget by exact Hk. eauto.
Qed.

End StoreFacts.

(** C10.  Saving a store and loading it again gives the same mapping:
    for every mapping [s] from labels to lists of timestamps and every
    disk, [save_scan_data] followed by [load_scan_data] returns the
    document of [s]. *)
Theorem save_load_round_trip (s : store) (d : disk) :
  well_keyed s ->
  load_scan_data (save_scan_data (store_doc s) d) = OK (store_doc s).
Proof.
  intros Hnd. unfold load_scan_data, save_scan_data.
  rewrite text_files_write_same.
  rewrite loads_dumps_store by exact Hnd. reflexivity.
Qed.

Lemma save_load_round_trip_witness :
  load_scan_data
    (save_scan_data
       (store_doc [("Apple__Healthy", ["2024-05-01T10:00:00"; "2024-05-02T09:30:00"]);
                   ("Apple__Rotten", [])])
       no_files)
  = OK (store_doc [("Apple__Healthy", ["2024-05-01T10:00:00"; "2024-05-02T09:30:00"]);
                   ("Apple__Rotten", [])]).
Proof.
  apply (save_load_round_trip
           [("Apple__Healthy", ["2024-05-01T10:00:00"; "2024-05-02T09:30:00"]);
            ("Apple__Rotten", [])] no_files).
  unfold well_keyed. cbn.
  repeat constructor; cbn; intuition discriminate.
Defined.

(** C5.  Whatever the session and the files held, after "Clear All Data"
    the session mapping is empty and so is the mapping that
    [load_scan_data] reads back from the file. *)
Theorem clear_then_load_empty (w : world) :
  scan_data (session (clear_all_data w)) = JDict [] /\
  load_scan_data (files (clear_all_data w)) = OK (JDict []).
Proof.
  split; [reflexivity|].
  apply (load_saved_store []); [constructor|].
  unfold clear_all_data, save_scan_data. cbn [files].
  apply text_files_write_same.
Qed.



(** C2.  Confirming a prediction for [label] at time [timestamp] over
    any store [s], then loading the file: the mapping read back is a store
    whose sequence for [label] is the former one followed by [timestamp]
    (so it ends with it and is longer by exactly one), while every other
    label keeps its sequence. *)
Theorem confirm_then_load (s : store) (label timestamp : string) (prob : Q) (d : disk) :
  well_keyed s ->
  exists (w' : world) (s' : store),
    confirm_and_save timestamp (awaiting label prob s d) = OK w' /\
    load_scan_data (files w') = OK (store_doc s') /\
    dict_get label s' = Some (stamps_of label s ++ [timestamp]) /\
    List.length (stamps_of label s') = S (List.length (stamps_of label s)) /\
    (forall other, other <> label -> dict_get other s' = dict_get other s).
Proof.
  intros Hnd.
  set (s' := dict_set label (stamps_of label s ++ [timestamp]) s).
  unfold confirm_and_save, awaiting. cbn [session files scan_triggered prediction scan_data].
  rewrite append_scan_store. fold s'. cbn [bind].
  eexists; exists s'. split; [reflexivity|]. cbn [files].
  assert (Hget : dict_get label s' = Some (stamps_of label s ++ [timestamp]))
    by apply dict_get_set_same.
  repeat split.
  - apply load_saved_store; [apply well_keyed_set, Hnd|].
    apply text_files_write_same.
  - exact Hget.
  - unfold stamps_of at 1. rewrite Hget, length_app. cbn. lia.
  - intros other Hne. apply dict_get_set_other. congruence.
Qed.

Lemma confirm_then_load_witness :
  exists (w' : world) (s' : store),
    confirm_and_save "2024-05-03T08:00:00"
      (awaiting "Apple__Healthy" (9 # 10)
         [("Apple__Healthy", ["2024-05-01T10:00:00"])] no_files) = OK w' /\
    load_scan_data (files w') = OK (store_doc s') /\
    dict_get "Apple__Healthy" s'
      = Some (stamps_of "Apple__Healthy" [("Apple__Healthy", ["2024-05-01T10:00:00"])]
              ++ ["2024-05-03T08:00:00"]) /\
    List.length (stamps_of "Apple__Healthy" s')
      = S (List.length (stamps_of "Apple__Healthy"
                          [("Apple__Healthy", ["2024-05-01T10:00:00"])])) /\
    (forall other, other <> "Apple__Healthy" ->
       dict_get other s' = dict_get other [("Apple__Healthy", ["2024-05-01T10:00:00"])]).
Proof.
  apply (confirm_then_load [("Apple__Healthy", ["2024-05-01T10:00:00"])]
           "Apple__Healthy" "2024-05-03T08:00:00" (9 # 10) no_files).
  unfold well_keyed. cbn. repeat constructor; cbn; intuition discriminate.
Defined.

Section StepFacts.
Context `{Pillow}.

(** A fresh session holds the store of the data file, the empty store
    when there is no file yet. *)
Lemma init_session_holds (d : disk) (s : store) :
  well_keyed s ->
  text_files d DATA_FILE = Some (dumps (store_doc s)) \/
  (text_files d DATA_FILE = None /\ s = []) ->
  exists ss, init_session d = OK ss /\ holds {| session := ss; files := d |} s.
Proof.
  intros Hnd Hfile.
  assert (Hload : load_scan_data d = OK (store_doc s)).
  { destruct Hfile as [Htxt|[Hnone ->]].
    - apply load_saved_store; assumption.
    - unfold load_scan_data. now rewrite Hnone. }
  unfold init_session. rewrite Hload. cbn [bind].
  eexists. split; [reflexivity|]. split; [reflexivity | exact Hload].
Qed.

Lemma scan_image_keeps_store (img : image) (w : world) :
  scan_data (session (scan_image img w)) = scan_data (session w) /\
  files (scan_image img w) = files w.
Proof. unfold scan_image. destruct (scan (files w) img); split; reflexivity. Qed.

Lemma holds_confirm (timestamp : string) (w : world) (s : store) :
  holds w s -> well_keyed s ->
  holds (settle w (confirm_and_save timestamp w)) s \/
  exists label,
    holds (settle w (confirm_and_save timestamp w))
          (dict_set label (stamps_of label s ++ [timestamp]) s).
Proof.
  intros [Hdata Hfile] Hnd. unfold confirm_and_save.
  destruct (scan_triggered (session w)); [|left; split; assumption].
  destruct (prediction (session w)) as [[label prob]|]; [|left; split; assumption].
  destruct label as [| | |label| |]; try (left; split; assumption).
  right. exists label. rewrite Hdata, append_scan_store. cbn [bind settle].
  split; cbn [session files scan_data]; [reflexivity|].
  apply load_saved_store; [apply well_keyed_set, Hnd|].
  apply text_files_write_same.
Qed.

End StepFacts.

(** One action: the world holds a store that meets the invariant again,
    and unless the action is "Clear All Data" every sequence that was
    present is still there, possibly extended. *)
Lemma step_keeps_store `{Pillow} (ev : event) (w : world) (s : store) :
  holds w s -> well_keyed s -> nonempty_entries s ->
  exists s' : store,
    holds (step ev w) s' /\ well_keyed s' /\ nonempty_entries s' /\
    (ev <> ClearAllData ->
     forall label stamps,
       dict_get label s = Some stamps ->
       exists more, dict_get label s' = Some (stamps ++ more)).
Proof.
  intros Hholds Hnd Hinv.
  assert (Hsame : forall label stamps,
             dict_get label s = Some stamps ->
             exists more, dict_get label s = Some (stamps ++ more)).
  { intros label stamps Hget. exists []. now rewrite app_nil_r. }
  destruct ev as [img|timestamp| |]; cbn [step].
  - exists s. destruct (scan_image_keeps_store img w) as [Hd Hf].
    split; [|tauto]. unfold holds in *. now rewrite Hd, Hf.
  - destruct (holds_confirm timestamp w s Hholds Hnd) as [Hs|[label Hs]].
    + exists s. tauto.
    + eexists. split; [exact Hs|]. split; [apply well_keyed_set, Hnd|]. split.
      * apply nonempty_entries_set; [|exact Hinv].
        destruct (stamps_of label s); discriminate.
      * intros _ k stamps Hget. destruct (String.eqb_spec label k) as [<-|Hne].
        -- exists [timestamp]. rewrite dict_get_set_same.
           unfold stamps_of. now rewrite Hget.
        -- exists []. rewrite dict_get_set_other, app_nil_r by exact Hne.
           exact Hget.
  - exists s. destruct Hholds as [Hdata Hfile].
    unfold reload_data. rewrite Hfile. cbn [bind settle].
    split; [split; [reflexivity | exact Hfile] | tauto].
  - exists []. split; [|split; [constructor|split]].
    + split; [reflexivity|]. apply (load_saved_store []); [constructor|].
      unfold clear_all_data, save_scan_data. cbn [files].
      apply text_files_write_same.
    + intros label stamps Hget. discriminate.
    + intros Hne. congruence.
Qed.

(** C9.  Every store mutation keeps the invariant that a present key has
    a non-empty sequence: from a world that holds a store meeting it,
    any sequence of user actions (scan, confirm, which appends, reload,
    and clear; a single action is the one-element sequence) leads to a
    world that holds such a store again.  When "Clear All Data" is not
    among the actions no entry is removed: every sequence that was
    present is still there, possibly extended. *)
Theorem store_invariant_preserved `{Pillow} (evs : list event) (w : world) (s : store) :
  holds w s -> well_keyed s -> nonempty_entries s ->
  exists s' : store,
    holds (run evs w) s' /\ well_keyed s' /\ nonempty_entries s' /\
    (~ In ClearAllData evs ->
     forall label stamps,
       dict_get label s = Some stamps ->
       exists more, dict_get label s' = Some (stamps ++ more)).
Proof.
  revert w s. induction evs as [|ev evs IH]; intros w s Hholds Hnd Hinv.
  - exists s. repeat split; try assumption; try apply Hholds.
    intros _ label stamps Hget. exists []. now rewrite app_nil_r.
  - destruct (step_keeps_store ev w s Hholds Hnd Hinv)
      as (s1 & Hholds1 & Hnd1 & Hinv1 & Hkeep1).
    destruct (IH (step ev w) s1 Hholds1 Hnd1 Hinv1)
      as (s2 & Hholds2 & Hnd2 & Hinv2 & Hkeep2).
    exists s2. split; [exact Hholds2|]. split; [exact Hnd2|]. split; [exact Hinv2|].
    intros Hclear label stamps Hget.
    destruct (Hkeep1 (fun E => Hclear (or_introl E)) label stamps Hget)
      as [more1 Hget1].
    destruct (Hkeep2 (fun Hin => Hclear (or_intror Hin)) label _ Hget1)
      as [more2 Hget2].
    exists (more1 ++ more2). now rewrite app_assoc.
Qed.

(* ================================================================== *)
(** * Inference *)
(* ================================================================== *)

Section ArgmaxFacts.

(** The scan of [np.argmax]: [full] is the whole vector, of which the
    first [i] entries have been seen and [l] remains; [best] sits at
    [best_i], bounds every entry seen and exceeds those before it. *)
Lemma argmax_from_spec (l : Np.array1) :
  forall (full pre : Np.array1) (best_i i : nat) (best : Q),
    full = pre ++ l -> List.length pre = i ->
    nth_error full best_i = Some best ->
    (forall j x, j < i -> nth_error full j = Some x -> (x <= best)%Q) ->
    (forall j x, j < best_i -> nth_error full j = Some x -> (x < best)%Q) ->
    exists top,
      nth_error full (Np.argmax_from best_i best i l) = Some top /\
      (forall j x, nth_error full j = Some x -> (x <= top)%Q) /\
      (forall j x, j < Np.argmax_from best_i best i l ->
                   nth_error full j = Some x -> (x < top)%Q).
Proof.
  induction l as [|y l IH]; intros full pre best_i i best Hfull Hlen Hbest Hle Hlt.
  - cbn [Np.argmax_from]. exists best. split; [exact Hbest|]. split; [|exact Hlt].
    intros j x Hj. apply (Hle j x); [|exact Hj].
    assert (Hlt' : j < List.length full) by (apply nth_error_Some; congruence).
    rewrite Hfull, app_nil_r in Hlt'. lia.
  - cbn [Np.argmax_from].
    assert (Hy : nth_error full i = Some y).
    { rewrite Hfull, nth_error_app2 by lia.
      replace (i - List.length pre) with 0 by lia. reflexivity. }
    assert (Hfull' : full = (pre ++ [y]) ++ l) by (now rewrite <- app_assoc).
    assert (Hlen' : List.length (pre ++ [y]) = S i)
      by (rewrite length_app; cbn; lia).
    destruct (Qle_bool y best) eqn:Hcmp.
    + apply Qle_bool_iff in Hcmp.
      apply (IH full (pre ++ [y])); try assumption.
      intros j x Hj Hx. destruct (Nat.eq_dec j i) as [->|Hne].
      * congruence.
      * apply (Hle j x); [lia | exact Hx].
    + assert (Hgt : (best < y)%Q).
      { apply Qnot_le_lt. intros Hc. apply Qle_bool_iff in Hc. congruence. }
      apply (IH full (pre ++ [y])); try assumption.
      * intros j x Hj Hx. destruct (Nat.eq_dec j i) as [->|Hne].
        -- replace x with y by congruence. apply Qle_refl.
        -- apply Qle_trans with best; [|apply Qlt_le_weak, Hgt].
           apply (Hle j x); [lia | exact Hx].
      * intros j x Hj Hx. apply Qle_lt_trans with best; [|exact Hgt].
        apply (Hle j x); [exact Hj | exact Hx].
Qed.

(** [np.argmax] returns the first position of the largest entry. *)
Lemma argmax_spec (probs : Np.array1) :
  probs <> [] ->
  exists top_idx top,
    Np.argmax probs = Some top_idx /\
    nth_error probs top_idx = Some top /\
    (forall j x, nth_error probs j = Some x -> (x <= top)%Q) /\
    (forall j x, j < top_idx -> nth_error probs j = Some x -> (x < top)%Q).
Proof.
  destruct probs as [|p probs]; [congruence|]. intros _.
  destruct (argmax_from_spec probs (p :: probs) [p] 0 1 p) as [top Htop];
    try reflexivity.
  - intros j x Hj Hx. replace j with 0 in Hx by lia. cbn in Hx.
    replace x with p by congruence. apply Qle_refl.
  - intros j x Hj. lia.
  - exists (Np.argmax_from 0 p 1 probs), top. split; [reflexivity | exact Htop].
Qed.

End ArgmaxFacts.



(* ================================================================== *)
(** * Preprocessing *)
(* ================================================================== *)

Section ReferencePillow.

Lemma rgb_of_pixel_valid (px : list Z) :
  Forall (fun v => (0 <= v <= 255)%Z) px ->
  List.length (rgb_of_pixel px) = 3 /\
  Forall (fun v => (0 <= v <= 255)%Z) (rgb_of_pixel px).
Proof.
  intros Hpx. split.
  - destruct px as [|a [|b [|c px]]]; reflexivity.
  - destruct px as [|a [|b [|c px]]]; cbn [rgb_of_pixel].
    + repeat apply Forall_cons; try apply Forall_nil; lia.
    + inversion Hpx; subst. repeat apply Forall_cons; try apply Forall_nil; assumption.
    + inversion Hpx; subst. repeat apply Forall_cons; try apply Forall_nil; assumption.
    + inversion Hpx as [|? ? Ha Hpx1]; subst.
      inversion Hpx1 as [|? ? Hb Hpx2]; subst.
      inversion Hpx2 as [|? ? Hc Hpx3]; subst.
      repeat apply Forall_cons; try apply Forall_nil; assumption.
Qed.

Lemma ref_convert_spec (im : image) :
  valid_image im ->
  valid_image (ref_convert "RGB" im) /\ mode (ref_convert "RGB" im) = "RGB" /\
  width (ref_convert "RGB" im) = width im /\
  height (ref_convert "RGB" im) = height im.
Proof.
  intros [Hrows Hall]. unfold ref_convert, valid_image.
  change (String.eqb "RGB" "RGB") with true. cbn [mode width height pixels].
  change (bands "RGB") with 3. repeat split.
  - now rewrite length_map.
  - apply Forall_map. revert Hall. apply Forall_impl. intros row [Hw Hrow].
    split; [now rewrite length_map|].
    apply Forall_map. revert Hrow. apply Forall_impl. intros px [_ Hpx].
    apply rgb_of_pixel_valid, Hpx.
Qed.

Lemma black_pixel_valid (n : nat) :
  List.length (repeat 0%Z n) = n /\
  Forall (fun v => (0 <= v <= 255)%Z) (repeat 0%Z n).
Proof.
  split; [apply repeat_length|].
  apply Forall_forall. intros v Hv. apply repeat_spec in Hv. lia.
Qed.

Lemma ref_resize_spec (w h : nat) (im : image) :
  valid_image im ->
  valid_image (ref_resize (w, h) im) /\ mode (ref_resize (w, h) im) = mode im /\
  width (ref_resize (w, h) im) = w /\ height (ref_resize (w, h) im) = h.
Proof.
  intros [Hrows Hall]. unfold ref_resize, valid_image. cbn [mode width height pixels].
  repeat split.
  - now rewrite length_map, length_seq.
  - apply Forall_map, Forall_forall. intros y _.
    split; [now rewrite length_map, length_seq|].
    apply Forall_map, Forall_forall. intros x _.
    destruct (nth_in_or_default (y * height im / h) (pixels im) []) as [Hin|Hnil].
    + rewrite Forall_forall in Hall. destruct (Hall _ Hin) as [_ Hrow].
      destruct (nth_in_or_default (x * width im / w)
                  (nth (y * height im / h) (pixels im) [])
                  (repeat 0%Z (bands (mode im)))) as [Hin'|Hdef].
      * rewrite Forall_forall in Hrow. exact (Hrow _ Hin').
      * rewrite Hdef. apply black_pixel_valid.
    + rewrite Hnil. destruct (x * width im / w); apply black_pixel_valid.
Qed.

(** Nearest-neighbour resizing and band repetition meet the contract. *)
Lemma reference_pillow : Pillow.
Proof.
  exact (Build_Pillow ref_convert ref_resize ref_convert_spec ref_resize_spec).
Defined.

Lemma grey_1x2_valid : valid_image grey_1x2.
Proof. unfold valid_image. cbn. repeat constructor; lia. Qed.

End ReferencePillow.

Section PreprocessFacts.
Context `{Pillow}.

Lemma byte_over_255 (v : Z) :
  (0 <= v <= 255)%Z -> (0 <= inject_Z v / 255 <= 1)%Q.
Proof.
  intros Hv. unfold Qdiv, Qmult, Qinv, Qle, inject_Z. cbn. lia.
Qed.

(** What [preprocess_image] hands to [np.array]: an RGB image of the
    target size. *)
Lemma resized_rgb (image : image) (w h : nat) :
  valid_image image ->
  let rgb := resize (w, h) (convert "RGB" image) in
  valid_image rgb /\ mode rgb = "RGB" /\ width rgb = w /\ height rgb = h.
Proof.
  intros Hvalid rgb.
  destruct (convert_RGB_spec image Hvalid) as (Hv1 & Hm1 & _ & _).
  destruct (resize_spec w h (convert "RGB" image) Hv1) as (Hv2 & Hm2 & Hw2 & Hh2).
  subst rgb. rewrite Hm2, Hm1. tauto.
Qed.

End PreprocessFacts.



(* ================================================================== *)
(** * Loading the model and the labels *)
(* ================================================================== *)

Section LoaderFacts.

Lemma dict_get_Some_keys {K V} `{EqKey K} (k : K) (v : V) (d : dict K V) :
  dict_get k d = Some v -> In k (keys d).
Proof.
  intros Hget. apply dict_mem_true_iff. unfold dict_mem. now rewrite Hget.
Qed.

Lemma keys_set_same {K V} `{EqKey K} (k : K) (v : V) (d : dict K V) :
  In k (keys (dict_set k v d)).
Proof. apply (dict_get_Some_keys k v), dict_get_set_same. Qed.

(** The comprehension [{int(k): v ...}] started from [acc]: it succeeds
    when every key is an integer literal, every entry of the result stems
    from [acc] or from a member under its coerced key, and no key is lost. *)
Lemma coerce_keys_spec (members : list (string * json)) :
  forall acc : dict Z json,
    Forall (fun kv => int_of_str (fst kv) <> None) members ->
    exists inv_map,
      coerce_keys members acc = OK inv_map /\
      (forall z v, dict_get z inv_map = Some v ->
         dict_get z acc = Some v \/
         exists k, In (k, v) members /\ int_of_str k = Some z) /\
      (forall z, In z (keys acc) -> In z (keys inv_map)) /\
      (forall k v z, In (k, v) members -> int_of_str k = Some z ->
         In z (keys inv_map)).
Proof.
  induction members as [|[k v] members IH]; intros acc Hall.
  - exists acc. cbn. repeat split; tauto.
  - inversion Hall as [|? ? Hk Hrest]; subst. cbn [fst] in Hk.
    cbn [coerce_keys]. destruct (int_of_str k) as [z0|] eqn:Hint; [|congruence].
    destruct (IH (dict_set z0 v acc) Hrest) as (inv_map & Hrun & Hfrom & Hacc & Hmem).
    exists inv_map. split; [exact Hrun|]. split; [|split].
    + intros z v' Hget. destruct (Hfrom z v' Hget) as [Hset|(k' & Hin & Hk')].
      * destruct (Z.eq_dec z0 z) as [->|Hne].
        -- rewrite dict_get_set_same in Hset. right. exists k.
           split; [left; congruence | exact Hint].
        -- rewrite dict_get_set_other in Hset by exact Hne. now left.
      * right. exists k'. split; [now right | exact Hk'].
    + intros z Hin. apply Hacc, keys_set_incl, Hin.
    + intros k' v' z [Heq|Hin] Hk'.
      * inversion Heq; subst. replace z with z0 by congruence.
        apply Hacc, keys_set_same.
      * exact (Hmem k' v' z Hin Hk').
Qed.

Lemma is_rescaling_layer_iff (name : string) :
  is_rescaling_layer name = true <->
  exists pre post,
    name = (pre ++ "Rescaling" ++ post)%string \/
    name = (pre ++ "Preprocessing" ++ post)%string.
Proof.
  unfold is_rescaling_layer. rewrite orb_true_iff, !contains_iff. split.
  - intros [(pre & post & E)|(pre & post & E)]; exists pre, post; tauto.
  - intros (pre & post & [E|E]); [left|right]; exists pre, post; exact E.
Qed.

End LoaderFacts.



(* ================================================================== *)
(** * The scan as a whole *)
(* ================================================================== *)




(* ================================================================== *)
(** * Categories and tallies *)
(* ================================================================== *)

Section CategoryFacts.

(** The category of a label is decided by its text alone: "fresh" when
    it contains "Healthy", "not fresh" otherwise, whatever the
    confidence shown next to it. *)
Lemma shown_category_by_text (label : string) (prob : Q) :
  shown_category (JStr label, prob)
  = OK (if contains "Healthy" label
        then "Segar (Fresh)" else "Tidak Segar (Not Fresh)").
Proof. reflexivity. Qed.

Lemma category_fresh_iff (label : string) :
  category (JStr label) = OK "Segar (Fresh)" <->
  exists pre post, label = (pre ++ "Healthy" ++ post)%string.
Proof.
  rewrite <- contains_iff. unfold category, str_in. cbn [bind].
  destruct (contains "Healthy" label); split; intros E;
    try reflexivity; discriminate.
Qed.

Lemma tally_store (marker : string) (s : store) :
  forall acc : dict string nat,
    NoDup (keys acc ++ keys s) ->
    tally marker (map entry_doc s) acc = OK (acc ++ counts marker s).
Proof.
  induction s as [|[k stamps] s IH]; intros acc Hnd; cbn [map tally entry_doc fst snd].
  - unfold counts. cbn. now rewrite app_nil_r.
  - unfold counts. cbn [filter fst snd].
    assert (Hk : ~ In k (keys acc)).
    { cbn [keys map fst] in Hnd. apply NoDup_remove_2 in Hnd.
      intros Hin. apply Hnd, in_or_app. now left. }
    destruct (contains marker k).
    + cbn [py_len stamps_doc bind]. rewrite length_map.
      rewrite IH.
      * rewrite keys_set_absent by exact Hk. now rewrite <- app_assoc.
      * rewrite keys_set_absent by exact Hk. unfold keys in *.
        rewrite map_app, <- app_assoc. exact Hnd.
    + apply IH. cbn [keys map fst] in Hnd. apply NoDup_remove_1 in Hnd. exact Hnd.
Qed.

(** Each tally lists the labels that contain its own marker: "Healthy"
    for the fresh group, "Rotten" for the other. *)
Lemma tallies_by_marker (s : store) :
  well_keyed s ->
  healthy_items (store_doc s) = OK (counts "Healthy" s) /\
  rotten_items (store_doc s) = OK (counts "Rotten" s).
Proof.
  intros Hnd. unfold healthy_items, rotten_items, tally_of, store_doc.
  split; apply (tally_store _ s []); exact Hnd.
Qed.

End CategoryFacts.

(** C1.  The category rule and the tallies part ways on a label that
    carries neither marker.  With two mapped classes and a model whose
    largest output is at index 2, the scan yields the label "2"; the
    Result tab shows it as "not fresh"; once confirmed it is stored, and
    neither the fresh nor the not-fresh tally lists it. *)
Theorem unmarked_label_in_no_tally :
  top1 [(0%Z, JStr "Apple__Healthy"); (1%Z, JStr "Apple__Rotten")]
       [[1 # 10; 2 # 10; 7 # 10]%Q]
    = OK (JStr "2", (7 # 10)%Q) /\
  shown_category (JStr "2", (7 # 10)%Q) = OK "Tidak Segar (Not Fresh)" /\
  exists w' : world,
    confirm_and_save "2024-05-01T10:00:00" (awaiting "2" (7 # 10) [] no_files) = OK w' /\
    scan_data (session w') = store_doc unmapped_scan_store /\
    load_scan_data (files w') = OK (store_doc unmapped_scan_store) /\
    healthy_items (store_doc unmapped_scan_store) = OK [] /\
    rotten_items (store_doc unmapped_scan_store) = OK [].
Proof.
  split; [reflexivity|]. split; [reflexivity|].
  eexists. split; [reflexivity|]. cbn [session files scan_data].
  split; [reflexivity|]. split; [vm_compute; reflexivity|].
  split; reflexivity.
Qed.

(* ================================================================== *)
(** * Worked examples *)
(* ================================================================== *)

Lemma store_invariant_preserved_witness :
  exists s' : store,
    holds (@run reference_pillow
             [ConfirmSave "2024-05-03T08:00:00"; ReloadData; ScanImage grey_1x2]
             (awaiting "Apple__Healthy" (9 # 10)
                [("Apple__Healthy", ["2024-05-01T10:00:00"])]
                (save_scan_data
                   (store_doc [("Apple__Healthy", ["2024-05-01T10:00:00"])])
                   no_files))) s' /\
    well_keyed s' /\ nonempty_entries s' /\
    (~ In ClearAllData
          [ConfirmSave "2024-05-03T08:00:00"; ReloadData; ScanImage grey_1x2] ->
     forall label stamps,
       dict_get label [("Apple__Healthy", ["2024-05-01T10:00:00"])] = Some stamps ->
       exists more, dict_get label s' = Some (stamps ++ more)).
Proof.
  apply (@store_invariant_preserved reference_pillow
           [ConfirmSave "2024-05-03T08:00:00"; ReloadData; ScanImage grey_1x2]
           (awaiting "Apple__Healthy" (9 # 10)
              [("Apple__Healthy", ["2024-05-01T10:00:00"])]
              (save_scan_data
                 (store_doc [("Apple__Healthy", ["2024-05-01T10:00:00"])])
                 no_files))
           [("Apple__Healthy", ["2024-05-01T10:00:00"])]).
  - split; [reflexivity | vm_compute; reflexivity].
  - unfold well_keyed. cbn. repeat constructor; cbn; intuition discriminate.
  - intros label stamps Hget. cbn in Hget.
    destruct (String.eqb label "Apple__Healthy"); [|discriminate].
    inversion Hget. discriminate.
Defined.

Example str_of_nat_17 : str_of_nat 17 = "17".
Proof. reflexivity. Qed.

Example int_of_str_signed : int_of_str " -1_0 " = Some (-10)%Z.
Proof. reflexivity. Qed.

Example int_of_str_double_underscore : int_of_str "1__0" = None.
Proof. reflexivity. Qed.

Example contains_marker : contains "Healthy" "Apple__Healthy" = true.
Proof. reflexivity. Qed.

Example loads_rejects_trailing_comma : loads "[1,]" = None.
Proof. reflexivity. Qed.

Example loads_skips_blanks :
  loads " [1 , -2,[ ] ,{ } , true, null] "
  = Some (JList [JInt 1; JInt (-2); JList []; JDict []; JBool true; JNull]).
Proof. vm_compute. reflexivity. Qed.

(** The end-to-end example of section 8: labels 0 and 1, outputs 0.9 and
    0.1; the prediction is "Apple__Healthy" with probability 0.9 and its
    confirmation files one timestamp under that label. *)
Example end_to_end :
  let w := {| session := {| scan_data := JDict []; scan_triggered := false;
                            image_to_scan := None; prediction := None |};
              files := installed (constant_model [9 # 10; 1 # 10]%Q) two_labels |} in
  let w1 := @scan_image reference_pillow grey_1x2 w in
  prediction (session w1) = Some (JStr "Apple__Healthy", (9 # 10)%Q) /\
  exists w2,
    confirm_and_save "2024-05-01T10:00:00" w1 = OK w2 /\
    load_scan_data (files w2)
    = OK (store_doc [("Apple__Healthy", ["2024-05-01T10:00:00"])]).
Proof.
  cbv zeta. split; [reflexivity|].
  eexists. split; [reflexivity|]. vm_compute. reflexivity.
Qed.

(* ================================================================== *)
(** * Further properties: tallies and their display *)
(* ================================================================== *)

Section TallyFacts.

Lemma dict_get_counts (marker label : string) (s : store) :
  dict_get label (counts marker s)
  = if contains marker label
    then option_map (@List.length string) (dict_get label s)
    else None.
Proof.
  unfold counts. induction s as [|[k stamps] s IH]; cbn [filter map fst snd dict_get].
  - now destruct (contains marker label).
  - destruct (contains marker k) eqn:Hk; cbn [map dict_get fst snd keqb string_EqKey].
    + destruct (String.eqb_spec label k) as [->|Hne].
      * now rewrite Hk.
      * exact IH.
    + destruct (String.eqb_spec label k) as [->|Hne].
      * now rewrite IH, Hk.
      * exact IH.
Qed.

Lemma tally_of_store (marker : string) (s : store) :
  well_keyed s -> tally_of marker (store_doc s) = OK (counts marker s).
Proof. intros Hnd. apply (tally_store marker s []). exact Hnd. Qed.

Lemma item_leb_total (a b : string * nat) :
  item_leb a b = false -> item_leb b a = true.
Proof.
  unfold item_leb. rewrite (String.compare_antisym (fst a) (fst b)).
  destruct (String.compare (fst b) (fst a)); cbn [CompOpp]; try congruence.
  intros Hle. apply Nat.leb_gt in Hle. apply Nat.leb_le. lia.
Qed.

Lemma item_leb_label (a b : string * nat) :
  item_leb a b = true -> String.leb (fst a) (fst b) = true.
Proof.
  unfold item_leb, String.leb.
  destruct (String.compare (fst a) (fst b)); congruence.
Qed.

Lemma insert_item_perm (x : string * nat) (l : list (string * nat)) :
  Permutation.Permutation (insert_item x l) (x :: l).
Proof.
  induction l as [|y l IH]; cbn [insert_item];
    [apply Permutation.Permutation_refl|].
  destruct (item_leb x y); [apply Permutation.Permutation_refl|].
  apply Permutation.perm_trans with (y :: x :: l);
    [apply Permutation.perm_skip, IH | apply Permutation.perm_swap].
Qed.

Lemma insert_item_sorted (x : string * nat) (l : list (string * nat)) :
  Sorted.Sorted (fun a b => item_leb a b = true) l ->
  Sorted.Sorted (fun a b => item_leb a b = true) (insert_item x l).
Proof.
  induction l as [|y l IH]; intros Hs; cbn [insert_item].
  - repeat constructor.
  - destruct (item_leb x y) eqn:Hxy.
    + constructor; [exact Hs | constructor; exact Hxy].
    + inversion Hs as [|? ? Hl Hhd]; subst. constructor; [apply IH, Hl|].
      destruct l as [|z l]; cbn [insert_item].
      * constructor. apply item_leb_total, Hxy.
      * destruct (item_leb x z); constructor.
        -- apply item_leb_total, Hxy.
        -- inversion Hhd; assumption.
Qed.

Lemma py_sorted_perm (items : list (string * nat)) :
  Permutation.Permutation (py_sorted items) items.
Proof.
  induction items as [|x items IH]; cbn [py_sorted fold_right];
    [apply Permutation.perm_nil|].
  apply Permutation.perm_trans with (x :: py_sorted items);
    [apply insert_item_perm | apply Permutation.perm_skip, IH].
Qed.

Lemma py_sorted_sorted (items : list (string * nat)) :
  Sorted.Sorted (fun a b => item_leb a b = true) (py_sorted items).
Proof.
  induction items as [|x items IH]; cbn [py_sorted fold_right].
  - constructor.
  - apply insert_item_sorted, IH.
Qed.

End TallyFacts.

(** X1.  Each tally lists exactly the stored labels that contain its own
    marker, each with the number of its timestamps: "Healthy" for the
    fresh tally (lines 178, 210), "Rotten" for the other (lines 191, 219).
    A label with both markers is in both, a label with neither in none. *)
Theorem tallies_list_marked_labels (s : store) :
  well_keyed s ->
  exists fresh rotten : dict string nat,
    healthy_items (store_doc s) = OK fresh /\
    rotten_items (store_doc s) = OK rotten /\
    (forall label,
       dict_get label fresh
       = if contains "Healthy" label
         then option_map (@List.length string) (dict_get label s) else None) /\
    (forall label,
       dict_get label rotten
       = if contains "Rotten" label
         then option_map (@List.length string) (dict_get label s) else None).
Proof.
  intros Hnd. exists (counts "Healthy" s), (counts "Rotten" s).
  unfold healthy_items, rotten_items. rewrite !tally_of_store by exact Hnd.
  repeat split; intros label; apply dict_get_counts.
Qed.

Lemma tallies_list_marked_labels_witness :
  exists fresh rotten : dict string nat,
    healthy_items (store_doc [("Apple__Healthy", ["t1"; "t2"]); ("2", ["t3"])]) = OK fresh /\
    rotten_items (store_doc [("Apple__Healthy", ["t1"; "t2"]); ("2", ["t3"])]) = OK rotten /\
    dict_get "Apple__Healthy" fresh = Some 2 /\
    dict_get "2" fresh = None /\ dict_get "2" rotten = None.
Proof.
  destruct (tallies_list_marked_labels
              [("Apple__Healthy", ["t1"; "t2"]); ("2", ["t3"])])
    as (fresh & rotten & Hf & Hr & Hfresh & Hrotten).
  - unfold well_keyed. cbn. repeat constructor; cbn; intuition discriminate.
  - exists fresh, rotten. repeat split; try assumption.
    + rewrite Hfresh. reflexivity.
    + rewrite Hfresh. reflexivity.
    + rewrite Hrotten. reflexivity.
Defined.

(** X2.  When every stored label carries exactly one of the two markers, the
    tallies agree with the category of the Result tab: a stored label
    shown as fresh is counted in the fresh tally only, one shown as not
    fresh in the not-fresh tally only, each with the length of its
    sequence. *)
Theorem tallies_agree_with_category (s : store) (label : string) (stamps : list string) :
  well_keyed s -> one_marker_each s ->
  dict_get label s = Some stamps ->
  exists fresh rotten : dict string nat,
    healthy_items (store_doc s) = OK fresh /\
    rotten_items (store_doc s) = OK rotten /\
    ((category (JStr label) = OK "Segar (Fresh)" /\
      dict_get label fresh = Some (List.length stamps) /\
      dict_get label rotten = None) \/
     (category (JStr label) = OK "Tidak Segar (Not Fresh)" /\
      dict_get label fresh = None /\
      dict_get label rotten = Some (List.length stamps))).
Proof.
  intros Hnd Hmark Hget. exists (counts "Healthy" s), (counts "Rotten" s).
  unfold healthy_items, rotten_items. rewrite !tally_of_store by exact Hnd.
  split; [reflexivity|]. split; [reflexivity|].
  rewrite !dict_get_counts, Hget. cbn [option_map].
  unfold category, str_in. cbn [bind].
  rewrite (Hmark label (dict_get_Some_keys label stamps s Hget)).
  destruct (contains "Rotten" label); cbn [negb]; [right | left]; repeat split.
Qed.

Lemma tallies_agree_with_category_witness :
  exists fresh rotten : dict string nat,
    healthy_items (store_doc [("Apple__Healthy", ["t1"; "t2"]); ("Apple__Rotten", ["t3"])])
      = OK fresh /\
    rotten_items (store_doc [("Apple__Healthy", ["t1"; "t2"]); ("Apple__Rotten", ["t3"])])
      = OK rotten /\
    ((category (JStr "Apple__Rotten") = OK "Segar (Fresh)" /\
      dict_get "Apple__Rotten" fresh = Some (List.length ["t3"]) /\
      dict_get "Apple__Rotten" rotten = None) \/
     (category (JStr "Apple__Rotten") = OK "Tidak Segar (Not Fresh)" /\
      dict_get "Apple__Rotten" fresh = None /\
      dict_get "Apple__Rotten" rotten = Some (List.length ["t3"]))).
Proof.
  apply (tallies_agree_with_category
           [("Apple__Healthy", ["t1"; "t2"]); ("Apple__Rotten", ["t3"])]
           "Apple__Rotten" ["t3"]).
  - unfold well_keyed. cbn. repeat constructor; cbn; intuition discriminate.
  - intros label [<-|[<-|[]]]; reflexivity.
  - reflexivity.
Defined.

(** X3.  Confirming a scan raises the count that a tally shows for its label
    by exactly one (from zero for a new label) when the label carries the
    tally's marker, and leaves every other count as it was. *)
Theorem confirm_adds_one_to_count (marker : string) (s : store)
    (label timestamp : string) (prob : Q) (d : disk) :
  well_keyed s ->
  exists (w' : world) (before after : dict string nat),
    confirm_and_save timestamp (awaiting label prob s d) = OK w' /\
    tally_of marker (store_doc s) = OK before /\
    tally_of marker (scan_data (session w')) = OK after /\
    dict_get label after
      = (if contains marker label then Some (S (count_of label s)) else None) /\
    (forall other, other <> label -> dict_get other after = dict_get other before).
Proof.
  intros Hnd.
  set (s' := dict_set label (stamps_of label s ++ [timestamp]) s).
  unfold confirm_and_save, awaiting.
  cbn [session files scan_triggered prediction scan_data].
  rewrite append_scan_store. fold s'. cbn [bind].
  eexists. exists (counts marker s), (counts marker s').
  split; [reflexivity|]. cbn [session scan_data].
  rewrite !tally_of_store by (try apply well_keyed_set; exact Hnd).
  split; [reflexivity|]. split; [reflexivity|]. split.
  - rewrite dict_get_counts. unfold s'. rewrite dict_get_set_same.
    cbn [option_map]. unfold count_of. rewrite length_app. cbn [List.length].
    now rewrite Nat.add_1_r.
  - intros other Hne. rewrite !dict_get_counts. unfold s'.
    rewrite dict_get_set_other by congruence. reflexivity.
Qed.

Lemma confirm_adds_one_to_count_witness :
  exists (w' : world) (before after : dict string nat),
    confirm_and_save "t3" (awaiting "Apple__Healthy" (9 # 10)
                             [("Apple__Healthy", ["t1"; "t2"])] no_files) = OK w' /\
    tally_of "Healthy" (store_doc [("Apple__Healthy", ["t1"; "t2"])]) = OK before /\
    tally_of "Healthy" (scan_data (session w')) = OK after /\
    dict_get "Apple__Healthy" after
      = (if contains "Healthy" "Apple__Healthy"
         then Some (S (count_of "Apple__Healthy" [("Apple__Healthy", ["t1"; "t2"])]))
         else None) /\
    (forall other, other <> "Apple__Healthy" ->
       dict_get other after = dict_get other before).
Proof.
  apply (confirm_adds_one_to_count "Healthy" [("Apple__Healthy", ["t1"; "t2"])]
           "Apple__Healthy" "t3" (9 # 10) no_files).
  unfold well_keyed. cbn. repeat constructor; cbn; intuition discriminate.
Defined.

Section ColumnFacts.

Lemma sorted_by_label (l : list (string * nat)) :
  Sorted.Sorted (fun a b => item_leb a b = true) l ->
  Sorted.Sorted (fun a b => String.leb (fst a) (fst b) = true) l.
Proof.
  induction 1 as [|x l Hl IH Hhd]; constructor; [exact IH|].
  destruct Hhd; constructor. now apply item_leb_label.
Qed.

Lemma tally_lines_spec (empty_msg : string) (items : dict string nat) :
  (items = [] -> tally_lines empty_msg items = [empty_msg]) /\
  (items <> [] ->
   exists shown,
     tally_lines empty_msg items = map format_line shown /\
     Permutation.Permutation shown items /\
     Sorted.Sorted (fun a b => String.leb (fst a) (fst b) = true) shown).
Proof.
  split.
  - intros ->. reflexivity.
  - intros Hne. destruct items as [|x items]; [congruence|].
    exists (py_sorted (x :: items)). split; [reflexivity|]. split.
    + apply py_sorted_perm.
    + apply sorted_by_label, py_sorted_sorted.
Qed.

End ColumnFacts.

(** X4.  The columns of the Result tab show the tallies line by line: for a
    store, the fresh column has one line per label that contains
    "Healthy", in ascending order of the labels, and the single line
    "No fresh items yet." when there is none; likewise the not-fresh
    column for the labels that contain "Rotten". *)
Theorem columns_sorted_by_label (s : store) :
  well_keyed s ->
  exists fresh_lines rotten_lines : list string,
    fresh_column (store_doc s) = OK fresh_lines /\
    not_fresh_column (store_doc s) = OK rotten_lines /\
    (counts "Healthy" s = [] -> fresh_lines = ["No fresh items yet."]) /\
    (counts "Rotten" s = [] -> rotten_lines = ["No not-fresh items yet."]) /\
    (counts "Healthy" s <> [] ->
     exists shown,
       fresh_lines = map format_line shown /\
       Permutation.Permutation shown (counts "Healthy" s) /\
       Sorted.Sorted (fun a b => String.leb (fst a) (fst b) = true) shown) /\
    (counts "Rotten" s <> [] ->
     exists shown,
       rotten_lines = map format_line shown /\
       Permutation.Permutation shown (counts "Rotten" s) /\
       Sorted.Sorted (fun a b => String.leb (fst a) (fst b) = true) shown).
Proof.
  intros Hnd. unfold fresh_column, not_fresh_column, healthy_items, rotten_items.
  rewrite !tally_of_store by exact Hnd. cbn [bind].
  eexists. eexists. split; [reflexivity|]. split; [reflexivity|].
  repeat split; apply tally_lines_spec.
Qed.

Lemma columns_sorted_by_label_witness :
  fresh_column (store_doc [("Pear__Healthy", ["t1"]); ("Apple__Healthy", ["t2"; "t3"]);
                           ("Apple__Rotten", ["t4"])])
    = OK ["Apple__Healthy: **x2**"; "Pear__Healthy: **x1**"] /\
  exists fresh_lines rotten_lines : list string,
    fresh_column (store_doc []) = OK fresh_lines /\
    not_fresh_column (store_doc []) = OK rotten_lines /\
    fresh_lines = ["No fresh items yet."] /\
    rotten_lines = ["No not-fresh items yet."].
Proof.
  split; [reflexivity|].
  destruct (columns_sorted_by_label []) as (fl & rl & Hf & Hr & Hfe & Hre & _ & _).
  - constructor.
  - exists fl, rl. repeat split; try assumption.
    + now apply Hfe.
    + now apply Hre.
Defined.

(* ================================================================== *)
(** * Further properties: the store and the session *)
(* ================================================================== *)

Section AppendFacts.

Lemma dict_get_None_set {K V} `{EqKey K} (k : K) (v : V) (d : dict K V) :
  dict_get k d = None -> dict_set k v d = d ++ [(k, v)].
Proof. intros Hget. apply keys_set_absent, dict_get_None_iff, Hget. Qed.

Lemma dict_mem_false_iff {K V} `{EqKey K} (k : K) (d : dict K V) :
  dict_mem k d = false <-> dict_get k d = None.
Proof. unfold dict_mem. destruct (dict_get k d); split; congruence. Qed.

Lemma keys_dict_set {K V} `{EqKey K} (k : K) (v : V) (d : dict K V) :
  keys (dict_set k v d) = if dict_mem k d then keys d else keys d ++ [k].
Proof.
  destruct (dict_mem k d) eqn:Hmem.
  - apply keys_set_present, dict_mem_true_iff, Hmem.
  - apply dict_mem_false_iff in Hmem. rewrite dict_get_None_set by exact Hmem.
    unfold keys. now rewrite map_app.
Qed.

End AppendFacts.

(** X5.  Lines 156-159 on any mapping, validated or not.  A new label is put
    last with the timestamp as its only entry; a label whose value is a
    list gets the timestamp appended, the keys keeping their order and
    the other values staying as they are; a label whose value is not a
    list makes the append fail with [AttributeError]. *)
Theorem append_scan_outcome (label timestamp : string) (members : dict string json) :
  (dict_get label members = None ->
   append_scan label timestamp (JDict members)
   = OK (JDict (members ++ [(label, JList [JStr timestamp])]))) /\
  (forall stamps,
     dict_get label members = Some (JList stamps) ->
     exists members',
       append_scan label timestamp (JDict members) = OK (JDict members') /\
       keys members' = keys members /\
       dict_get label members' = Some (JList (stamps ++ [JStr timestamp])) /\
       (forall other, other <> label ->
          dict_get other members' = dict_get other members)) /\
  (forall v,
     dict_get label members = Some v -> (forall stamps, v <> JList stamps) ->
     append_scan label timestamp (JDict members) = Raise AttributeError).
Proof.
  unfold append_scan. split; [|split].
  - intros Hget. unfold dict_mem. rewrite Hget. cbn [negb].
    rewrite dict_get_set_same. cbn [app].
    rewrite dict_set_twice. now rewrite dict_get_None_set.
  - intros stamps Hget. unfold dict_mem. rewrite Hget. cbn [negb]. rewrite Hget.
    eexists. split; [reflexivity|]. split; [|split].
    + apply keys_set_present, (dict_get_Some_keys label (JList stamps)), Hget.
    + apply dict_get_set_same.
    + intros other Hne. apply dict_get_set_other. congruence.
  - intros v Hget Hnot. unfold dict_mem. rewrite Hget. cbn [negb]. rewrite Hget.
    destruct v; try reflexivity. now elim (Hnot items).
Qed.

(** X6.  Appends compose: confirming [label] at the times [t :: rest], one
    after the other, leaves a store whose sequence for [label] is the
    former one followed by these times in that order; the labels keep
    their order, a new label going last. *)
Theorem append_all_in_order (s : store) (label t : string) (rest : list string) :
  let s' := dict_set label (stamps_of label s ++ t :: rest) s in
  append_all label (t :: rest) (store_doc s) = OK (store_doc s') /\
  stamps_of label s' = stamps_of label s ++ t :: rest /\
  keys s' = (if dict_mem label s then keys s else keys s ++ [label]) /\
  (forall other, other <> label -> dict_get other s' = dict_get other s).
Proof.
  cbv zeta. split; [|split; [|split]].
  - revert s t. induction rest as [|t' rest IH]; intros s t;
      cbn [append_all]; rewrite append_scan_store; cbn [bind].
    + reflexivity.
    + change (append_all label (t' :: rest)
                (store_doc (dict_set label (stamps_of label s ++ [t]) s))
              = OK (store_doc (dict_set label (stamps_of label s ++ t :: t' :: rest) s))).
      rewrite IH. unfold stamps_of at 1. rewrite dict_get_set_same.
      rewrite dict_set_twice, <- app_assoc. reflexivity.
  - unfold stamps_of at 1. now rewrite dict_get_set_same.
  - apply keys_dict_set.
  - intros other Hne. apply dict_get_set_other. congruence.
Qed.

Section LifecycleFacts.
Context `{Pillow}.

Lemma step_files (ev : event) (w : world) :
  files (step ev w) = files w \/
  exists data, files (step ev w) = save_scan_data data (files w).
Proof.
  destruct ev as [img|timestamp| |]; cbn [step].
  - left. apply scan_image_keeps_store.
  - unfold confirm_and_save.
    destruct (scan_triggered (session w)); [|now left].
    destruct (prediction (session w)) as [[label prob]|]; [|now left].
    destruct label; try (now left).
    destruct (append_scan s timestamp (scan_data (session w))) as [data|e];
      cbn [bind settle]; [right; now exists data | now left].
  - unfold reload_data. destruct (load_scan_data (files w)); cbn [bind settle]; now left.
  - right. now exists (JDict []).
Qed.

End LifecycleFacts.

(** X7.  The scan lifecycle.  From an idle session over a store, a successful
    scan holds its prediction without saving anything; confirming it
    appends the timestamp under the predicted label, saves, and discards
    the prediction, so that a second confirmation does nothing. *)
Theorem scan_then_confirm `{Pillow} (s : store) (d : disk) (img : image)
    (label : string) (prob : Q) (timestamp : string) :
  well_keyed s ->
  scan d img = OK (JStr label, prob) ->
  let w1 := scan_image img (idle s d) in
  prediction (session w1) = Some (JStr label, prob) /\
  scan_triggered (session w1) = true /\
  scan_data (session w1) = store_doc s /\
  files w1 = d /\
  exists w2,
    confirm_and_save timestamp w1 = OK w2 /\
    prediction (session w2) = None /\
    scan_triggered (session w2) = false /\
    holds w2 (dict_set label (stamps_of label s ++ [timestamp]) s) /\
    (forall later, confirm_and_save later w2 = OK w2).
Proof.
  intros Hnd Hscan. cbv zeta. unfold scan_image, idle. cbn [files].
  rewrite Hscan. cbn [session prediction scan_triggered scan_data files].
  repeat (split; [reflexivity|]).
  unfold confirm_and_save. cbn [session prediction scan_triggered scan_data files].
  rewrite append_scan_store. cbn [bind].
  eexists. split; [reflexivity|].
  cbn [session prediction scan_triggered scan_data files].
  repeat (split; [reflexivity|]). split.
  - split; [reflexivity|]. cbn [files].
    apply load_saved_store; [apply well_keyed_set, Hnd|].
    apply text_files_write_same.
  - intros later. reflexivity.
Qed.

Lemma scan_then_confirm_witness :
  exists w2,
    confirm_and_save "2024-05-01T10:00:00"
      (@scan_image reference_pillow grey_1x2
         (idle [] (installed (constant_model [9 # 10; 1 # 10]%Q) two_labels))) = OK w2 /\
    prediction (session w2) = None /\
    holds w2 [("Apple__Healthy", ["2024-05-01T10:00:00"])].
Proof.
  destruct (@scan_then_confirm reference_pillow []
              (installed (constant_model [9 # 10; 1 # 10]%Q) two_labels) grey_1x2
              "Apple__Healthy" (9 # 10)%Q "2024-05-01T10:00:00")
    as (_ & _ & _ & _ & w2 & Hconfirm & Hpred & _ & Hholds & _).
  - constructor.
  - reflexivity.
  - exists w2. split; [exact Hconfirm|]. split; [exact Hpred | exact Hholds].
Defined.

(** X8.  No user action writes anything but the data file: along any sequence
    of actions the model files and every other text file stay as they
    were, and with them the result of the loader. *)
Theorem actions_write_only_data_file `{Pillow} (evs : list event) (w : world) :
  model_files (files (run evs w)) = model_files (files w) /\
  (forall path, path <> DATA_FILE ->
     text_files (files (run evs w)) path = text_files (files w) path) /\
  (forall model_path labels_path, labels_path <> DATA_FILE ->
     load_model_and_labels (files (run evs w)) model_path labels_path
     = load_model_and_labels (files w) model_path labels_path).
Proof.
  assert (Hfiles : model_files (files (run evs w)) = model_files (files w) /\
                   forall path, path <> DATA_FILE ->
                     text_files (files (run evs w)) path = text_files (files w) path).
  { revert w. induction evs as [|ev evs IH]; intros w; [split; reflexivity|].
    change (run (ev :: evs) w) with (run evs (step ev w)).
    destruct (IH (step ev w)) as [Hm Ht].
    destruct (step_files ev w) as [E|[data E]].
    - rewrite Hm, E. split; [reflexivity|]. intros path Hne.
      rewrite (Ht path Hne), E. reflexivity.
    - rewrite Hm, E. split; [reflexivity|]. intros path Hne.
      rewrite (Ht path Hne), E. unfold save_scan_data, write_text. cbn [text_files].
      destruct (String.eqb_spec path DATA_FILE); [contradiction | reflexivity]. }
  destruct Hfiles as [Hm Ht]. split; [exact Hm|]. split; [exact Ht|].
  intros model_path labels_path Hne. unfold load_model_and_labels.
  now rewrite Hm, (Ht labels_path Hne).
Qed.

Section RestartFacts.
Context `{Pillow}.

Lemma run_holds (evs : list event) :
  forall (w : world) (s : store),
    holds w s -> well_keyed s ->
    exists s', holds (run evs w) s' /\ well_keyed s'.
Proof.
  induction evs as [|ev evs IH]; intros w s Hholds Hnd; [now exists s|].
  change (run (ev :: evs) w) with (run evs (step ev w)).
  assert (Hstep : exists s1, holds (step ev w) s1 /\ well_keyed s1).
  { destruct ev as [img|timestamp| |]; cbn [step].
    - exists s. split; [|exact Hnd].
      destruct (scan_image_keeps_store img w) as [Hd Hf].
      unfold holds in *. now rewrite Hd, Hf.
    - destruct (holds_confirm timestamp w s Hholds Hnd) as [Hs|[label Hs]].
      + now exists s.
      + eexists. split; [exact Hs | apply well_keyed_set, Hnd].
    - exists s. split; [|exact Hnd]. destruct Hholds as [Hdata Hfile].
      unfold reload_data. rewrite Hfile. cbn [bind settle].
      split; [reflexivity | exact Hfile].
    - exists []. split; [|constructor]. split; [reflexivity|].
      apply (load_saved_store []); [constructor|].
      unfold clear_all_data, save_scan_data. cbn [files].
      apply text_files_write_same. }
  destruct Hstep as (s1 & H1 & Hnd1). exact (IH (step ev w) s1 H1 Hnd1).
Qed.

End RestartFacts.

(** X9.  Confirmed scans survive a restart, a pending prediction does not: a
    fresh session opened on the files left by any sequence of actions
    starts idle and holds the store that the old session held. *)
Theorem restart_keeps_store `{Pillow} (evs : list event) (w : world) (s : store) :
  holds w s -> well_keyed s ->
  exists (s' : store) (fresh : session_state),
    holds (run evs w) s' /\
    init_session (files (run evs w)) = OK fresh /\
    scan_data fresh = scan_data (session (run evs w)) /\
    scan_triggered fresh = false /\ prediction fresh = None.
Proof.
  intros Hholds Hnd.
  destruct (run_holds evs w s Hholds Hnd) as (s' & [Hdata Hfile] & _). exists s'.
  unfold init_session. rewrite Hfile. cbn [bind].
  eexists. split; [split; assumption|]. split; [reflexivity|].
  split; [|split; reflexivity].
  cbn [scan_data]. now rewrite Hdata.
Qed.

Lemma restart_keeps_store_witness :
  exists (s' : store) (fresh : session_state),
    holds (@run reference_pillow [ConfirmSave "2024-05-03T08:00:00"]
             (awaiting "Apple__Healthy" (9 # 10) [] no_files)) s' /\
    init_session (files (@run reference_pillow [ConfirmSave "2024-05-03T08:00:00"]
                           (awaiting "Apple__Healthy" (9 # 10) [] no_files))) = OK fresh /\
    scan_data fresh
    = scan_data (session (@run reference_pillow [ConfirmSave "2024-05-03T08:00:00"]
                            (awaiting "Apple__Healthy" (9 # 10) [] no_files))) /\
    scan_triggered fresh = false /\ prediction fresh = None.
Proof.
  apply (@restart_keeps_store reference_pillow [ConfirmSave "2024-05-03T08:00:00"]
           (awaiting "Apple__Healthy" (9 # 10) [] no_files) []).
  - split; reflexivity.
  - constructor.
Defined.

(* ================================================================== *)
(** * Further properties: the label file *)
(* ================================================================== *)

Section IntFacts.

Lemma int_digits_uint (d : Decimal.uint) :
  forall (acc : Z) (after_digit : bool),
    d <> Decimal.Nil \/ after_digit = true ->
    int_digits acc after_digit (NilEmpty.string_of_uint d)
    = Some (uint_value d acc, EmptyString).
Proof.
  induction d; intros acc b Hstart;
    cbn [NilEmpty.string_of_uint int_digits uint_value].
  1: { destruct Hstart as [Hd | ->]; [congruence | reflexivity]. }
  all: match goal with |- context [is_digit ?c] =>
         change (is_digit c) with true;
         let v := eval vm_compute in (digit_val c) in change (digit_val c) with v
       end; cbn iota; rewrite ?Z.add_0_r; apply IHd; now right.
Qed.

Lemma uint_value_of_uint_acc (d : Decimal.uint) :
  forall acc : nat, uint_value d (Z.of_nat acc) = Z.of_nat (Nat.of_uint_acc d acc).
Proof.
  induction d; intros acc; cbn [uint_value Nat.of_uint_acc]; [reflexivity|..];
    rewrite <- IHd, Nat.tail_mul_spec; f_equal; lia.
Qed.

Lemma to_uint_nonnil (n : nat) : Nat.to_uint n <> Decimal.Nil.
Proof.
  pose proof (DecimalNat.Unsigned.to_of (Nat.to_uint n)) as Hnorm.
  rewrite DecimalNat.Unsigned.of_to in Hnorm. rewrite Hnorm.
  apply DecimalFacts.unorm_nonnil.
Qed.

Lemma int_of_str_digit_head (c : ascii) (r : string) :
  is_digit c = true ->
  int_of_str (String c r)
  = match int_digits 0 false (String c r) with
    | Some (n, tail) =>
        match lstrip tail with
        | EmptyString => Some (1 * n)%Z
        | String _ _ => None
        end
    | None => None
    end.
Proof.
  destruct c as [[] [] [] [] [] [] [] []]; intros Hd;
    try discriminate Hd; reflexivity.
Qed.

Lemma int_of_str_of_nat (n : nat) : int_of_str (str_of_nat n) = Some (Z.of_nat n).
Proof.
  unfold str_of_nat.
  destruct (string_of_uint_head (Nat.to_uint n) (to_uint_nonnil n)) as (c & r & E & Hc).
  rewrite E, int_of_str_digit_head by exact Hc. rewrite <- E.
  rewrite int_digits_uint by (left; apply to_uint_nonnil).
  cbn [lstrip]. change 0%Z with (Z.of_nat 0).
  rewrite uint_value_of_uint_acc.
  change (Nat.of_uint_acc (Nat.to_uint n) 0) with (Nat.of_uint (Nat.to_uint n)).
  rewrite DecimalNat.Unsigned.of_to. f_equal. lia.
Qed.

Lemma str_of_nat_inj (n m : nat) : str_of_nat n = str_of_nat m -> n = m.
Proof.
  intros E. pose proof (int_of_str_of_nat n) as Hn.
  rewrite E, int_of_str_of_nat in Hn. injection Hn as Hn. lia.
Qed.

End IntFacts.

(** X10.  The key coercion of line 59 undoes the stringification of line 125:
    [int(str(i)) == i] for every index, so a label file keyed by
    stringified indices is read back under these indices, and two
    indices never share a key. *)
Theorem int_inverts_str (i j : nat) :
  int_of_str (str_of_nat i) = Some (Z.of_nat i) /\
  (str_of_nat i = str_of_nat j <-> i = j).
Proof.
  split; [apply int_of_str_of_nat|].
  split; [apply str_of_nat_inj | now intros ->].
Qed.

Section CoerceFacts.

Lemma coerce_keys_app (a b : list (string * json)) (acc : dict Z json) :
  coerce_keys (a ++ b) acc = bind (coerce_keys a acc) (coerce_keys b).
Proof.
  revert acc. induction a as [|[k v] a IH]; intros acc; cbn [app coerce_keys bind].
  - reflexivity.
  - destruct (int_of_str k); [apply IH | reflexivity].
Qed.

Lemma coerce_keys_frame (z : Z) (members : list (string * json)) :
  forall acc inv_map,
    Forall (fun kv => int_of_str (fst kv) <> Some z) members ->
    coerce_keys members acc = OK inv_map ->
    dict_get z inv_map = dict_get z acc.
Proof.
  induction members as [|[k v] members IH]; intros acc inv_map Hall Hrun;
    cbn [coerce_keys] in Hrun.
  - congruence.
  - inversion Hall as [|? ? Hk Hrest]; subst. cbn [fst] in Hk.
    destruct (int_of_str k) as [z0|]; [|discriminate].
    rewrite (IH _ _ Hrest Hrun). apply dict_get_set_other. congruence.
Qed.

Lemma coerce_keys_bad_key (members : list (string * json)) :
  forall acc,
    Exists (fun kv => int_of_str (fst kv) = None) members ->
    coerce_keys members acc = Raise ValueError.
Proof.
  induction members as [|[k v] members IH]; intros acc Hex; [inversion Hex|].
  cbn [coerce_keys]. destruct (int_of_str k) as [z|] eqn:Hk; [|reflexivity].
  apply IH. inversion Hex as [? ? Hbad|? ? Hrest]; subst; [|exact Hrest].
  cbn [fst] in Hbad. congruence.
Qed.

Lemma coerce_keys_ok_all (members : list (string * json)) :
  forall acc inv_map,
    coerce_keys members acc = OK inv_map ->
    Forall (fun kv => int_of_str (fst kv) <> None) members.
Proof.
  induction members as [|[k v] members IH]; intros acc inv_map Hrun; [constructor|].
  cbn [coerce_keys] in Hrun. destruct (int_of_str k) as [z|] eqn:Hk; [|discriminate].
  constructor; [cbn [fst]; congruence | exact (IH _ _ Hrun)].
Qed.

End CoerceFacts.



(** X12.  When several keys of the label file coerce to the same integer, the
    last of them gives the label: the dict comprehension of line 59
    overwrites earlier entries. *)
Theorem later_key_wins (d : disk) (model_path labels_path : string)
    (model : keras_model) (txt : string)
    (before after : list (string * json)) (k : string) (v : json) (z : Z) :
  model_files d model_path = Some model ->
  text_files d labels_path = Some txt ->
  loads txt = Some (JDict (before ++ (k, v) :: after)) ->
  Forall (fun kv => int_of_str (fst kv) <> None) (before ++ (k, v) :: after) ->
  int_of_str k = Some z ->
  Forall (fun kv => int_of_str (fst kv) <> Some z) after ->
  exists inv_map has_rescaling,
    load_model_and_labels d model_path labels_path
      = OK (model, inv_map, has_rescaling) /\
    dict_get z inv_map = Some v.
Proof.
  intros Hmodel Htxt Hloads Hall Hk Hafter.
  unfold load_model_and_labels. rewrite Hmodel, Htxt, Hloads.
  destruct (coerce_keys_spec _ [] Hall) as (inv_map & Hrun & _).
  rewrite Hrun. cbn [bind]. eexists. eexists. split; [reflexivity|].
  rewrite coerce_keys_app in Hrun.
  destruct (coerce_keys before []) as [acc|e]; [|discriminate].
  cbn [bind coerce_keys] in Hrun. rewrite Hk in Hrun.
  rewrite (coerce_keys_frame z after _ _ Hafter Hrun).
  apply dict_get_set_same.
Qed.

Lemma later_key_wins_witness :
  exists inv_map has_rescaling,
    load_model_and_labels
      (installed (constant_model [1 # 10; 9 # 10]%Q)
         (dumps (JDict [("1", JStr "Apple__Healthy"); ("01", JStr "Apple__Rotten")])))
      DEFAULT_MODEL_PATH LABELS_PATH
      = OK (constant_model [1 # 10; 9 # 10]%Q, inv_map, has_rescaling) /\
    dict_get 1%Z inv_map = Some (JStr "Apple__Rotten").
Proof.
  apply (later_key_wins
           (installed (constant_model [1 # 10; 9 # 10]%Q)
              (dumps (JDict [("1", JStr "Apple__Healthy"); ("01", JStr "Apple__Rotten")])))
           DEFAULT_MODEL_PATH LABELS_PATH (constant_model [1 # 10; 9 # 10]%Q)
           (dumps (JDict [("1", JStr "Apple__Healthy"); ("01", JStr "Apple__Rotten")]))
           [("1", JStr "Apple__Healthy")] [] "01" (JStr "Apple__Rotten") 1%Z);
    try (vm_compute; reflexivity).
  - repeat constructor; discriminate.
  - constructor.
Defined.

Section CompleteLabels.

Lemma coerce_indexed (labels : list string) :
  forall (start : nat) (acc : dict Z json),
  exists inv_map,
    coerce_keys (indexed_from start labels) acc = OK inv_map /\
    (forall i l, nth_error labels i = Some l ->
       dict_get (Z.of_nat (start + i)) inv_map = Some (JStr l)) /\
    (forall z, (z < Z.of_nat start)%Z -> dict_get z inv_map = dict_get z acc).
Proof.
  induction labels as [|l labels IH]; intros start acc; cbn [indexed_from coerce_keys].
  - exists acc. split; [reflexivity|]. split; [|reflexivity].
    intros [|i] l' Hnth; discriminate Hnth.
  - rewrite int_of_str_of_nat.
    destruct (IH (S start) (dict_set (Z.of_nat start) (JStr l) acc))
      as (inv_map & Hrun & Hnew & Hold).
    exists inv_map. split; [exact Hrun|]. split.
    + intros [|i] l' Hnth; cbn [nth_error] in Hnth.
      * injection Hnth as <-. rewrite Nat.add_0_r, Hold by lia.
        apply dict_get_set_same.
      * replace (start + S i) with (S start + i) by lia. now apply Hnew.
    + intros z Hz. rewrite Hold by lia. apply dict_get_set_other. lia.
Qed.

End CompleteLabels.

(** X13.  A label file that names the classes [0 .. n-1] in order makes the
    fallback of line 125 unreachable: whenever the model's output vector
    is non-empty and no longer than the list of labels, the scan keeps the
    label listed at the top index, together with the output at that
    index. *)
Theorem complete_labels_name_every_scan `{Pillow} (d : disk) (img : image)
    (model : keras_model) (txt : string) (labels : list string)
    (probs : Np.array1) (others : list Np.array1) :
  model_files d DEFAULT_MODEL_PATH = Some model ->
  text_files d LABELS_PATH = Some txt ->
  loads txt = Some (JDict (indexed_labels labels)) ->
  predict model
    (preprocess_image img IMG_SIZE
       (negb (existsb is_rescaling_layer (layers model)))) = probs :: others ->
  probs <> [] ->
  List.length probs <= List.length labels ->
  exists (top_idx : nat) (label : string) (prob : Q),
    scan d img = OK (JStr label, prob) /\
    Np.argmax probs = Some top_idx /\
    nth_error labels top_idx = Some label /\
    nth_error probs top_idx = Some prob.
Proof.
  intros Hmodel Htxt Hloads Hpred Hne Hlen.
  destruct (argmax_spec probs Hne) as (top_idx & prob & Harg & Hnth & _ & _).
  assert (Hlt : top_idx < List.length labels).
  { apply Nat.lt_le_trans with (List.length probs); [|exact Hlen].
    apply nth_error_Some. congruence. }
  destruct (nth_error labels top_idx) as [label|] eqn:Hlabel;
    [|apply nth_error_None in Hlabel; lia].
  destruct (coerce_indexed labels 0 []) as (inv_map & Hrun & Hnew & _).
  exists top_idx, label, prob. split; [|repeat split; assumption].
  unfold scan, load_model_and_labels. rewrite Hmodel, Htxt, Hloads.
  unfold indexed_labels. rewrite Hrun. cbn [bind]. rewrite Hpred.
  unfold top1. rewrite Harg. unfold resolve_label.
  rewrite (Hnew top_idx label Hlabel : dict_get (Z.of_nat top_idx) inv_map = _).
  now rewrite (nth_error_nth probs top_idx 0%Q Hnth).
Qed.

Lemma complete_labels_name_every_scan_witness :
  exists (top_idx : nat) (label : string) (prob : Q),
    @scan reference_pillow
      (installed (constant_model [1 # 10; 9 # 10]%Q) two_labels) grey_1x2
      = OK (JStr label, prob) /\
    Np.argmax [1 # 10; 9 # 10]%Q = Some top_idx /\
    nth_error ["Apple__Healthy"; "Apple__Rotten"] top_idx = Some label /\
    nth_error [1 # 10; 9 # 10]%Q top_idx = Some prob.
Proof.
  apply (@complete_labels_name_every_scan reference_pillow
           (installed (constant_model [1 # 10; 9 # 10]%Q) two_labels) grey_1x2
           (constant_model [1 # 10; 9 # 10]%Q) two_labels
           ["Apple__Healthy"; "Apple__Rotten"] [1 # 10; 9 # 10]%Q []).
  - reflexivity.
  - reflexivity.
  - vm_compute. reflexivity.
  - reflexivity.
  - discriminate.
  - cbn. lia.
Defined.

(* ================================================================== *)
(** * Further properties: a data file that holds no store *)
(* ================================================================== *)


